(** * Randovania: the "generate game" widget and the Corruption configuration

    A shallow embedding of
      - [randovania/gui/widgets/generate_game_widget.py]
        ([persist_layout], [PresetMenu], [GenerateGameWidget]), and
      - [randovania/layout/prime3/corruption_configuration.py]
        ([CorruptionConfiguration]),
    together with the properties the specification states about them.

    Qt widgets become records of the attributes the code reads and writes
    (enabled flags, texts, the list of message boxes shown); Python
    exceptions become values of a [result] type; sources of randomness and
    the wall clock are explicit arguments. *)

From Stdlib Require Import ZArith NArith QArith String Ascii List Lia.
From Stdlib Require OrderedTypeEx.
From stdpp Require Import base option list gmap strings sorting.

Local Open Scope Z_scope.
Local Open Scope string_scope.

(** ** Exceptions as values *)

Inductive result (A E : Type) : Type :=
| Ok (a : A)
| Raise (e : E).
Arguments Ok {A E} a.
Arguments Raise {A E} e.

Definition result_bind {A B E} (r : result A E) (k : A -> result B E)
  : result B E :=
  match r with Ok a => k a | Raise e => Raise e end.

Notation "x <-! r ; k" := (result_bind r (fun x => k))
  (at level 100, r at next level, right associativity, only parsing).

(** The Python string ["\n"]. *)
Definition newline : string := String (ascii_of_nat 10) EmptyString.

(** ** Presets *)

(** UUIDs are 128-bit numbers; only their identity matters here. *)
Abbreviation UUID := N (only parsing).

(** Modelled from the spec: [randovania.games.game.RandovaniaGame] is an enum
    that is not among the sources; the widget only reads its [short_name]. *)
Record RandovaniaGame := { short_name : string }.

(** Modelled from the spec: [randovania.layout.preset.Preset], a frozen
    dataclass that is not among the sources.  The attributes are the ones
    the widget reads ([name], [description], [uuid], [base_preset_uuid]);
    the per-game configuration is kept as the opaque payload [configuration],
    a sequence of field values. *)
Record Preset := {
  name : string;
  uuid : UUID;
  description : string;
  base_preset_uuid : option UUID;
  game : RandovaniaGame;
  configuration : list Z;
}.

Global Instance RandovaniaGame_eq_dec : EqDecision RandovaniaGame.
Proof. solve_decision. Defined.

Global Instance Preset_eq_dec : EqDecision Preset.
Proof. solve_decision. Defined.

(** [InvalidPreset] carries the exception that made the preset unusable. *)
Record InvalidPreset := { original_exception : string }.

(** Modelled from the spec: [randovania.layout.versioned_preset.VersionedPreset]
    is not among the sources.  It wraps either a decoded [Preset] or the
    error found while decoding it, and exposes identity attributes without
    decoding. *)
Record VersionedPreset := {
  vp_name : string;
  vp_uuid : UUID;
  vp_base_preset_uuid : option UUID;
  vp_contents : result Preset InvalidPreset;
}.

(** [VersionedPreset.get_preset()]: the preset, or raises [InvalidPreset]. *)
Definition get_preset (vp : VersionedPreset) : result Preset InvalidPreset :=
  vp_contents vp.

(** [VersionedPreset.with_preset(preset)] *)
Definition with_preset (p : Preset) : VersionedPreset :=
  {| vp_name := name p;
     vp_uuid := uuid p;
     vp_base_preset_uuid := base_preset_uuid p;
     vp_contents := Ok p |}.

(** [dataclasses.replace(preset, uuid=new_uuid)] *)
Definition replace_uuid (p : Preset) (new_uuid : UUID) : Preset :=
  {| name := name p;
     uuid := new_uuid;
     description := description p;
     base_preset_uuid := base_preset_uuid p;
     game := game p;
     configuration := configuration p |}.

(** ** [PresetMenu] *)

Inductive Action :=
| action_customize | action_delete | action_history | action_export
| action_duplicate | action_map_tracker | action_required_tricks
| action_import | action_view_deleted.

Global Instance Action_eq_dec : EqDecision Action.
Proof. solve_decision. Defined.

Record PresetMenu := {
  menu_preset : option VersionedPreset;
  enabled : Action -> bool;
}.

(** [QAction.setEnabled] on one action of the menu. *)
Definition setEnabled (a : Action) (b : bool) (m : PresetMenu) : PresetMenu :=
  {| menu_preset := menu_preset m;
     enabled := fun a' => if decide (a' = a) then b else enabled m a' |}.

(** [for p in actions: p.setEnabled(b)] *)
Definition setEnabled_all (actions : list Action) (b : bool) (m : PresetMenu)
  : PresetMenu :=
  fold_left (fun m' a => setEnabled a b m') actions m.

(** [x is not None] *)
Definition is_not_None {A} (o : option A) : bool :=
  match o with Some _ => true | None => false end.

(** [preset is not None and preset.base_preset_uuid is not None] *)
Definition is_fork (preset : option VersionedPreset) : bool :=
  match preset with
  | Some p => is_not_None (vp_base_preset_uuid p)
  | None => false
  end.

(** [PresetMenu.set_preset] *)
Definition set_preset (preset : option VersionedPreset) (m : PresetMenu)
  : PresetMenu :=
  let m0 := {| menu_preset := preset; enabled := enabled m |} in
  let m1 := setEnabled_all [action_delete; action_history; action_export]
              (is_fork preset) m0 in
  setEnabled_all
    [action_customize; action_duplicate; action_map_tracker;
     action_required_tricks]
    (is_not_None preset) m1.

(** ** [GenerateGameWidget] *)

(** A [QMessageBox] that was shown: its kind, title and text. *)
Inductive MessageKind := critical | warning.
Record MessageBox := {
  box_kind : MessageKind;
  box_title : string;
  box_text : string;
}.

(** The buttons offered by the "Preset ID conflict" box,
    [Yes | No | Cancel]; the box returns the one that was chosen. *)
Inductive StandardButton := Yes | No | Cancel.

Record GenerateGameWidget := {
  (* self._window_manager.preset_manager: the preset registry *)
  preset_manager : gmap N VersionedPreset;
  (* preset_manager.default_preset_for_game(self.game) *)
  default_preset_for_game : VersionedPreset;
  (* self._options: the selected preset of self.game *)
  selected_preset_uuid : option UUID;
  (* self.create_preset_tree.current_preset_data *)
  current_preset_data : option VersionedPreset;
  (* self.num_players_spin_box.value() *)
  num_players_spin_box : Z;
  (* self.create_preset_description text *)
  create_preset_description : string;
  (* enabled flags of the two generate buttons *)
  create_generate_button : bool;
  create_generate_race_button : bool;
  (* self._preset_menu *)
  preset_menu : PresetMenu;
  (* message boxes shown so far, oldest first *)
  message_boxes : list MessageBox;
}.

Definition set_preset_manager (r : gmap N VersionedPreset)
  (w : GenerateGameWidget) : GenerateGameWidget :=
  {| preset_manager := r;
     default_preset_for_game := default_preset_for_game w;
     selected_preset_uuid := selected_preset_uuid w;
     current_preset_data := current_preset_data w;
     num_players_spin_box := num_players_spin_box w;
     create_preset_description := create_preset_description w;
     create_generate_button := create_generate_button w;
     create_generate_race_button := create_generate_race_button w;
     preset_menu := preset_menu w;
     message_boxes := message_boxes w |}.

Definition set_selected_preset_uuid (u : option UUID)
  (w : GenerateGameWidget) : GenerateGameWidget :=
  {| preset_manager := preset_manager w;
     default_preset_for_game := default_preset_for_game w;
     selected_preset_uuid := u;
     current_preset_data := current_preset_data w;
     num_players_spin_box := num_players_spin_box w;
     create_preset_description := create_preset_description w;
     create_generate_button := create_generate_button w;
     create_generate_race_button := create_generate_race_button w;
     preset_menu := preset_menu w;
     message_boxes := message_boxes w |}.

Definition set_current_preset_data (p : option VersionedPreset)
  (w : GenerateGameWidget) : GenerateGameWidget :=
  {| preset_manager := preset_manager w;
     default_preset_for_game := default_preset_for_game w;
     selected_preset_uuid := selected_preset_uuid w;
     current_preset_data := p;
     num_players_spin_box := num_players_spin_box w;
     create_preset_description := create_preset_description w;
     create_generate_button := create_generate_button w;
     create_generate_race_button := create_generate_race_button w;
     preset_menu := preset_menu w;
     message_boxes := message_boxes w |}.

Definition set_description_and_buttons (text : string) (b : bool)
  (w : GenerateGameWidget) : GenerateGameWidget :=
  {| preset_manager := preset_manager w;
     default_preset_for_game := default_preset_for_game w;
     selected_preset_uuid := selected_preset_uuid w;
     current_preset_data := current_preset_data w;
     num_players_spin_box := num_players_spin_box w;
     create_preset_description := text;
     create_generate_button := b;
     create_generate_race_button := b;
     preset_menu := preset_menu w;
     message_boxes := message_boxes w |}.

Definition set_preset_menu (m : PresetMenu)
  (w : GenerateGameWidget) : GenerateGameWidget :=
  {| preset_manager := preset_manager w;
     default_preset_for_game := default_preset_for_game w;
     selected_preset_uuid := selected_preset_uuid w;
     current_preset_data := current_preset_data w;
     num_players_spin_box := num_players_spin_box w;
     create_preset_description := create_preset_description w;
     create_generate_button := create_generate_button w;
     create_generate_race_button := create_generate_race_button w;
     preset_menu := m;
     message_boxes := message_boxes w |}.

Definition show_message_box (b : MessageBox)
  (w : GenerateGameWidget) : GenerateGameWidget :=
  {| preset_manager := preset_manager w;
     default_preset_for_game := default_preset_for_game w;
     selected_preset_uuid := selected_preset_uuid w;
     current_preset_data := current_preset_data w;
     num_players_spin_box := num_players_spin_box w;
     create_preset_description := create_preset_description w;
     create_generate_button := create_generate_button w;
     create_generate_race_button := create_generate_race_button w;
     preset_menu := preset_menu w;
     message_boxes := message_boxes w ++ [b] |}.

Section Widget.

(** Collaborators of the widget whose code is not among the sources. *)

(** [preset_describer.merge_categories(preset_describer.describe(p))] *)
Variable describe : Preset -> string.
(** [str(uuid)] *)
Variable str_uuid : UUID -> string.
(** [VersionedPreset.from_file_sync(path)]: the parsed file. *)
Variable from_file_sync : string -> VersionedPreset.

(** Modelled from the spec: [PresetManager.add_new_preset] is not among the
    sources; the registry operation [add(preset)] "inserts or overwrites by
    UUID". *)
Definition add_new_preset (preset : VersionedPreset)
  (registry : gmap N VersionedPreset) : gmap N VersionedPreset :=
  <[vp_uuid preset := preset]> registry.

(** [PresetManager.preset_for_uuid] *)
Definition preset_for_uuid (registry : gmap N VersionedPreset) (u : UUID)
  : option VersionedPreset :=
  registry !! u.

(** [GenerateGameWidget.on_preset_changed] *)
Definition on_preset_changed (preset : option VersionedPreset)
  (w : GenerateGameWidget) : GenerateGameWidget :=
  let '(can_generate, text) :=
    match preset with
    | None => (false, "Please select a preset from the list.")
    | Some vp =>
        match get_preset vp with
        | Ok raw_preset =>
            (true,
             "<p style='font-weight:600;'>" ++ name raw_preset
               ++ "</p><p>" ++ description raw_preset ++ "</p>"
               ++ describe raw_preset)
        | Raise e =>
            (false,
             "Preset " ++ vp_name vp
               ++ " can't be used as it contains the following error:"
               ++ newline ++ original_exception e ++ newline
               ++ newline ++ "Please open edit the preset file with id "
               ++ str_uuid (vp_uuid vp)
               ++ " manually or delete this preset.")
        end
    end in
  set_description_and_buttons text can_generate w.

(** [GenerateGameWidget._add_new_preset]: record the selection in the
    options, add to the registry, refresh the tree and select the preset
    (the signals the tree emits on selection are not followed). *)
Definition _add_new_preset (preset : VersionedPreset)
  (w : GenerateGameWidget) : GenerateGameWidget :=
  let w1 := set_selected_preset_uuid (Some (vp_uuid preset)) w in
  let w2 := set_preset_manager (add_new_preset preset (preset_manager w1)) w1 in
  set_current_preset_data (Some preset) w2.

(** [GenerateGameWidget.import_preset_file].  [user_response] is the button
    the user picks if the conflict box is shown, [uuid4] the value
    [uuid.uuid4()] returns if it is called. *)
Definition import_preset_file (path : string)
  (user_response : StandardButton) (uuid4 : UUID)
  (w : GenerateGameWidget) : GenerateGameWidget :=
  let preset := from_file_sync path in
  match get_preset preset with
  | Raise _ =>
      show_message_box
        {| box_kind := critical;
           box_title := "Error loading preset";
           box_text := "The file at '" ++ path
                         ++ "' contains an invalid preset." |} w
  | Ok raw_preset =>
      match preset_for_uuid (preset_manager w) (vp_uuid preset) with
      | Some existing_preset =>
          let w1 :=
            show_message_box
              {| box_kind := warning;
                 box_title := "Preset ID conflict";
                 box_text := "The new preset '" ++ vp_name preset
                   ++ "' has the same ID as existing '"
                   ++ vp_name existing_preset
                   ++ "'. Do you want to overwrite it?" |} w in
          match user_response with
          | Cancel => w1
          | No =>
              _add_new_preset
                (with_preset (replace_uuid raw_preset uuid4)) w1
          | Yes => _add_new_preset preset w1
          end
      | None => _add_new_preset preset w
      end
  end.

(** [GenerateGameWidget._on_tree_context_menu]: [preset] is the preset of
    the tree item under the cursor, if any. *)
Definition _on_tree_context_menu (preset : option VersionedPreset)
  (w : GenerateGameWidget) : GenerateGameWidget :=
  set_preset_menu (set_preset preset (preset_menu w)) w.

(** The [preset] property of the widget. *)
Definition preset (w : GenerateGameWidget) : VersionedPreset :=
  match current_preset_data w with
  | Some p => p
  | None => default_preset_for_game w
  end.

End Widget.

(** ** Generating a new layout *)

(** Modelled from the spec: [randovania.layout.generator_parameters] is not
    among the sources; "GeneratorParameters: {seed_number, spoiler, presets:
    ordered sequence, one per player slot}".  The record holds what the
    caller passes to the constructor. *)
Record GeneratorParameters := {
  seed_number : Z;
  spoiler : bool;
  presets : list Preset;
}.

(** [Permalink.from_parameters(parameters)]: the widget only reads back
    [permalink.parameters]. *)
Record Permalink := from_parameters { parameters : GeneratorParameters }.

(** [random.randint(a, b)]: "Return random integer in range [a, b], including
    both end points."  [entropy] is the state of the random source; every
    value of the closed range is reached by some [entropy]. *)
Definition randint (a b : Z) (entropy : Z) : Z :=
  a + entropy mod (b - a + 1).

(** [[x] * n]: Python repeats the list [n] times, and gives the empty list
    when [n <= 0]. *)
Definition list_times {A} (x : A) (n : Z) : list A :=
  repeat x (Z.to_nat n).

(** [GenerateGameWidget.generate_new_layout]: the result is what is handed to
    [generate_layout_from_permalink], or the [InvalidPreset] raised by
    [preset.get_preset()]. *)
Definition generate_new_layout (spoiler_arg : bool) (retries : option Z)
  (entropy : Z) (w : GenerateGameWidget)
  : result (Permalink * option Z) InvalidPreset :=
  let preset := preset w in
  let num_players := num_players_spin_box w in
  let seed := randint 0 (2 ^ 31) entropy in
  raw_preset <-! get_preset preset ;
  Ok (from_parameters
        {| seed_number := seed;
           spoiler := spoiler_arg;
           presets := list_times raw_preset num_players |},
      retries).

(** ** Persisting a layout *)

(** Modelled from the spec: [randovania.layout.layout_description] is not
    among the sources.  The record holds the attributes [persist_layout] and
    the background work read: the games involved, the two renderings of the
    shareable hash, the declared file extension and the serialised form that
    [save_to_file] writes. *)
Record LayoutDescription := {
  all_games : list RandovaniaGame;
  shareable_hash : string;
  shareable_word_hash : string;
  file_extension : string;
  as_json : string;
}.

(** [datetime.datetime.now()] *)
Record datetime := {
  year : N; month : N; day : N; hour : N; minute : N; second : N;
}.

Definition digit (n : N) : ascii := ascii_of_N (48 + n mod 10).

(** Zero-padded decimal of width two ([%m], [%d], [%H], [%M], [%S]). *)
Definition pad2 (n : N) : string :=
  String (digit (n / 10)) (String (digit n) EmptyString).

(** Zero-padded decimal of width four ([%Y]). *)
Definition pad4 (n : N) : string :=
  String (digit (n / 1000)) (String (digit (n / 100)) (pad2 n)).

(** [now.strftime("%Y-%m-%d-%H-%M-%S")] *)
Definition strftime (now : datetime) : string :=
  pad4 (year now) ++ "-" ++ pad2 (month now) ++ "-" ++ pad2 (day now)
    ++ "-" ++ pad2 (hour now) ++ "-" ++ pad2 (minute now)
    ++ "-" ++ pad2 (second now).

(** Python compares strings by code point; [sorted] is stable merge sort. *)
Definition str_le (s1 s2 : string) : Prop := String.leb s1 s2 = true.

Global Instance str_le_dec s1 s2 : Decision (str_le s1 s2).
Proof. unfold str_le. apply _. Defined.

Global Instance str_le_total : Total str_le.
Proof. intros s1 s2. apply String.leb_total. Qed.

Definition sorted (l : list string) : list string := merge_sort str_le l.

(** A path is the sequence of its components. *)
Abbreviation Path := (list string) (only parsing).

(** [path.joinpath(name)] *)
Definition joinpath (dir : list string) (file_name : string) : list string :=
  dir ++ [file_name].

(** The file system: the directories that exist and the contents of the
    files. *)
Record FileSystem := {
  directories : gset (list string);
  files : gmap (list string) string;
}.

(** A path and all its ancestors, the root first. *)
Fixpoint ancestors (path : list string) : list (list string) :=
  match path with
  | [] => [[]]
  | c :: rest => [] :: map (cons c) (ancestors rest)
  end.

(** The exceptions the work function distinguishes: [GenerationFailure] is
    caught, anything else propagates.  Both carry their [str()]. *)
Inductive Exception :=
| GenerationFailure (message : string)
| OtherException (message : string).

(** The two [OSError]s [mkdir] raises for a path that is taken. *)
Definition FileExistsError : Exception := OtherException "FileExistsError".
Definition NotADirectoryError : Exception :=
  OtherException "NotADirectoryError".

(** The path names a regular file. *)
Definition is_file (fs : FileSystem) (path : list string) : bool :=
  bool_decide (is_Some (files fs !! path)).

(** The ancestors of a path without the path itself. *)
Definition proper_ancestors (path : list string) : list (list string) :=
  match path with
  | [] => []
  | _ => ancestors (removelast path)
  end.

(** [path.mkdir(parents=True, exist_ok=True)]: [os.mkdir] fails with
    [NotADirectoryError] when an ancestor of the path is a regular file and
    with [FileExistsError] when the path itself is one, and [pathlib] raises
    both again as the path is no directory; otherwise the directory and its
    missing ancestors are made, and an existing directory is accepted.
    Files are not touched. *)
Definition mkdir_parents (dir : list string) (fs : FileSystem)
  : result FileSystem Exception :=
  if existsb (is_file fs) (proper_ancestors dir) then
    Raise NotADirectoryError
  else if is_file fs dir then
    Raise FileExistsError
  else
    Ok {| directories := list_to_set (ancestors dir) ∪ directories fs;
          files := files fs |}.

(** The name [persist_layout] gives the file. *)
Definition layout_file_name (now : datetime) (d : LayoutDescription) : string :=
  let games := String.concat "-" (sorted (map short_name (all_games d))) in
  let date_format := strftime now in
  date_format ++ "_" ++ games ++ "_" ++ shareable_word_hash d
    ++ "." ++ file_extension d.

Section Persist.

(** [LayoutDescription.save_to_file] is not among the sources: given the
    path and the description it changes the file system or raises. *)
Variable save_to_file :
  list string -> LayoutDescription -> FileSystem ->
  result FileSystem Exception.

(** [persist_layout(history_dir, description)]; [now] is what
    [datetime.datetime.now()] returns. *)
Definition persist_layout (now : datetime) (history_dir : list string)
  (d : LayoutDescription) (fs : FileSystem) : result FileSystem Exception :=
  fs1 <-! mkdir_parents history_dir fs ;
  let file_path := joinpath history_dir (layout_file_name now d) in
  save_to_file file_path d fs1.

End Persist.


(** ** The background work of [generate_layout_from_permalink] *)

(** What the work function does to the outside, in order. *)
Inductive Event :=
| progress_update (message : string) (fraction : Q)
| handle_failure (message : string)
| open_game_details (layout : LayoutDescription).

Record World := {
  file_system : FileSystem;
  events : list Event;
}.

(** Computations that change the world and return or raise. *)
Definition M (A : Type) : Type := World -> World * result A Exception.

Definition ret {A} (a : A) : M A := fun w => (w, Ok a).

Definition raise {A} (e : Exception) : M A := fun w => (w, Raise e).

Definition bind {A B} (m : M A) (k : A -> M B) : M B :=
  fun w =>
    match m w with
    | (w', Ok a) => k a w'
    | (w', Raise e) => (w', Raise e)
    end.

Notation "x <<- m ;; k" := (bind m (fun x => k))
  (at level 100, m at next level, right associativity, only parsing).
Notation "m ;;; k" := (bind m (fun _ => k))
  (at level 100, right associativity, only parsing).

Definition emit (e : Event) : M unit :=
  fun w => ({| file_system := file_system w; events := events w ++ [e] |},
            Ok tt).

Definition emit_all (es : list Event) : M unit :=
  fun w => ({| file_system := file_system w; events := events w ++ es |},
            Ok tt).

(** A step on the file system that may raise; the file system is left as
    it was when it does. *)
Definition on_file_system (f : FileSystem -> result FileSystem Exception)
  : M unit :=
  fun w =>
    match f (file_system w) with
    | Ok fs' => ({| file_system := fs'; events := events w |}, Ok tt)
    | Raise e => (w, Raise e)
    end.

(** [try: body  except GenerationFailure as e: handler(str(e))] *)
Definition try_except_GenerationFailure {A} (body : M A)
  (handler : string -> M A) : M A :=
  fun w =>
    match body w with
    | (w', Raise (GenerationFailure message)) => handler message w'
    | r => r
    end.

Section Work.

(** [LayoutDescription.save_to_file], as for [persist_layout]. *)
Variable save_to_file :
  list string -> LayoutDescription -> FileSystem ->
  result FileSystem Exception.

(** [simplified_patcher.generate_layout] is not among the sources: for the
    parameters and the retry count it calls [progress_update] some number
    of times and then returns a layout or raises. *)
Variable generate_layout :
  GeneratorParameters -> option Z ->
  list (string * Q) * result LayoutDescription Exception.

(** How [self._window_manager.open_game_details(layout)] ends. *)
Variable open_game_details_result :
  LayoutDescription -> result unit Exception.

Definition call_generate_layout (p : GeneratorParameters)
  (retries : option Z) : M LayoutDescription :=
  let '(updates, outcome) := generate_layout p retries in
  emit_all (map (fun u => progress_update (fst u) (snd u)) updates) ;;;
  match outcome with
  | Ok layout => ret layout
  | Raise e => raise e
  end.

Definition call_open_game_details (layout : LayoutDescription) : M unit :=
  emit (open_game_details layout) ;;;
  match open_game_details_result layout with
  | Ok _ => ret tt
  | Raise e => raise e
  end.

(** The local function [work] of [generate_layout_from_permalink];
    [now] and [history_dir] are the clock and
    [self._options.game_history_path]. *)
Definition work (permalink : Permalink) (retries : option Z)
  (now : datetime) (history_dir : list string) : M unit :=
  try_except_GenerationFailure
    (layout <<- call_generate_layout (parameters permalink) retries ;;
     emit (progress_update
             ("Success! (Seed hash: " ++ shareable_hash layout ++ ")") 1) ;;;
     on_file_system (persist_layout save_to_file now history_dir layout) ;;;
     call_open_game_details layout)
    (fun generate_exception =>
       emit (handle_failure generate_exception) ;;;
       emit (progress_update
               ("Generation Failure: " ++ generate_exception) (-1 # 1))).

(** [GenerateGameWidget.generate_layout_from_permalink]: the permalink is
    logged in preview mode, then [work] is handed to
    [run_in_background_thread], which runs it once. *)
Definition generate_layout_from_permalink (permalink : Permalink)
  (retries : option Z) (now : datetime) (history_dir : list string) : M unit :=
  work permalink retries now history_dir.

(** The progress updates among the events, oldest first. *)
Definition progress_updates (es : list Event) : list (string * Q) :=
  omap (fun e => match e with
                 | progress_update m f => Some (m, f)
                 | _ => None
                 end) es.

(** The fractions reported during the run of [work] that
    [generate_layout_from_permalink] starts in a world with no events yet. *)
Definition run_fractions (permalink : Permalink) (retries : option Z)
  (now : datetime) (history_dir : list string) (fs : FileSystem) : list Q :=
  map snd
    (progress_updates
       (events (fst (generate_layout_from_permalink permalink retries now
                       history_dir {| file_system := fs; events := [] |})))).

End Work.


(** ** [CorruptionConfiguration] *)

(** The [metadata] of a numeric dataclass field. *)
Record FieldMetadata := {
  meta_min : Z;
  meta_max : Z;
  meta_precision : Z;
}.

(** [metadata={"min": 1, "max": 1000, "precision": 1}] *)
Definition energy_per_tank_metadata : FieldMetadata :=
  {| meta_min := 1; meta_max := 1000; meta_precision := 1 |}.

(** A configuration field is out of its declared domain. *)
Record ValidationError := {
  error_field : string;
  error_value : Z;
}.

(** Modelled from the spec: the check of a field against its metadata lives in
    [BaseConfiguration] and its mixins, which are not among the sources;
    "integers with declared valid range and step/precision". *)
Definition in_domain (m : FieldMetadata) (v : Z) : bool :=
  ((meta_min m <=? v)%Z && (v <=? meta_max m)%Z
   && ((v - meta_min m) mod meta_precision m =? 0)%Z)%bool.

Section Corruption.

(** Field types declared in modules that are not among the sources. *)
Variable TeleporterConfiguration : Type.
Variable LayoutLogicalResourceAction : Type.

Record CorruptionConfiguration := {
  elevators : TeleporterConfiguration;
  energy_per_tank : Z;
  logical_resource_action : LayoutLogicalResourceAction;
  start_with_corrupted_hypermode : bool;
}.

(** Modelled from the spec: construction and loading of a configuration go
    through [BaseConfiguration], which is not among the sources; "validation
    occurs at construction/load, never silently clamped" and "construction/
    import refuses to produce an invalid Configuration".  The value is
    stored as given or the construction fails. *)
Definition new_CorruptionConfiguration
  (elevators_arg : TeleporterConfiguration) (energy_per_tank_arg : Z)
  (logical_resource_action_arg : LayoutLogicalResourceAction)
  (start_with_corrupted_hypermode_arg : bool)
  : result CorruptionConfiguration ValidationError :=
  if in_domain energy_per_tank_metadata energy_per_tank_arg then
    Ok {| elevators := elevators_arg;
          energy_per_tank := energy_per_tank_arg;
          logical_resource_action := logical_resource_action_arg;
          start_with_corrupted_hypermode :=
            start_with_corrupted_hypermode_arg |}
  else
    Raise {| error_field := "energy_per_tank";
             error_value := energy_per_tank_arg |}.

End Corruption.

Arguments elevators {_ _} _.
Arguments energy_per_tank {_ _} _.
Arguments logical_resource_action {_ _} _.
Arguments start_with_corrupted_hypermode {_ _} _.
Arguments new_CorruptionConfiguration {_ _} _ _ _ _.

(** ** The permalink codec *)

(** Modelled from the spec: [randovania.layout.permalink] is not among the
    sources.  The spec asks for "a fixed-charset, versioned textual token",
    a seed in "a fixed-width integer domain [0, 2^31)", "validated before
    encoding", and the two errors [MalformedPermalink] and
    [UnsupportedVersion], and leaves the "exact charset/version byte layout"
    to the implementation.  The layout chosen here: the version, the 31-bit
    seed, the spoiler bit and the presets, one per player, written six bits
    to a character of the URL-safe base64 alphabet.  Numbers without a fixed
    width (the version, lengths, UUIDs) are written self-delimiting, so none
    is cut short. *)
Inductive PermalinkError :=
| MalformedPermalink
| UnsupportedVersion (found : N).

(** A number in [width] bits, least significant bit first. *)
Fixpoint encode_int (width : nat) (n : N) : list bool :=
  match width with
  | O => []
  | S w => N.odd n :: encode_int w (N.div2 n)
  end.

Fixpoint decode_int (width : nat) (bits : list bool)
  : option (N * list bool) :=
  match width with
  | O => Some (0%N, bits)
  | S w =>
      match bits with
      | [] => None
      | b :: rest =>
          '(n, rest') ← decode_int w rest;
          Some ((N.b2n b + 2 * n)%N, rest')
      end
  end.

Definition alphabet : list ascii :=
  list_ascii_of_string
    "ABCDEFGHIJKLMNOPQRSTUVWXYZabcdefghijklmnopqrstuvwxyz0123456789-_".

Fixpoint index_of (c : ascii) (l : list ascii) : option nat :=
  match l with
  | [] => None
  | x :: rest => if Ascii.eqb c x then Some O else S <$> index_of c rest
  end.

(** The character for six bits; a shorter group is padded with zero bits. *)
Definition symbol_of_bits (bits : list bool) : ascii :=
  match decode_int 6 (bits ++ repeat false 6)%list with
  | Some (n, _) => nth (N.to_nat n) alphabet "A"%char
  | None => "A"%char
  end.

Definition bits_of_symbol (c : ascii) : option (list bool) :=
  i ← index_of c alphabet;
  Some (encode_int 6 (N.of_nat i)).

(** Six bits to a character; the last group is padded with zero bits. *)
Fixpoint encode_text (fuel : nat) (bits : list bool) : string :=
  match fuel with
  | O => EmptyString
  | S fuel' =>
      match bits with
      | [] => EmptyString
      | _ => String (symbol_of_bits (take 6 bits))
               (encode_text fuel' (drop 6 bits))
      end
  end.

Fixpoint decode_text (token : string)
  : result (list bool) PermalinkError :=
  match token with
  | EmptyString => Ok []
  | String c rest =>
      match bits_of_symbol c with
      | None => Raise MalformedPermalink
      | Some group =>
          bits <-! decode_text rest ;
          Ok (group ++ bits)%list
      end
  end.

(** What may follow the last field: fewer than six zero bits. *)
Definition is_padding (bits : list bool) : bool :=
  (length bits <? 6)%nat && forallb negb bits.

(** A positive number of any size: each binary digit, lowest first, after a
    1, and a 0 after the highest digit (which is always 1 and not written). *)
Fixpoint encode_positive (p : positive) : list bool :=
  match p with
  | xH => [false]
  | xO q => true :: false :: encode_positive q
  | xI q => true :: true :: encode_positive q
  end.

Fixpoint decode_positive (bits : list bool) : option (positive * list bool) :=
  match bits with
  | false :: rest => Some (xH, rest)
  | true :: b :: rest =>
      '(q, rest') ← decode_positive rest;
      Some (if b then xI q else xO q, rest')
  | _ => None
  end.

(** A natural number of any size: a 0 for zero, a 1 and the positive
    otherwise. *)
Definition encode_N (n : N) : list bool :=
  match n with
  | N0 => [false]
  | Npos p => true :: encode_positive p
  end.

Definition decode_N (bits : list bool) : option (N * list bool) :=
  match bits with
  | false :: rest => Some (0%N, rest)
  | true :: rest =>
      '(p, rest') ← decode_positive rest;
      Some (Npos p, rest')
  | [] => None
  end.

(** An integer: the sign, then the absolute value. *)
Definition encode_Z (z : Z) : list bool :=
  (z <? 0)%Z :: encode_N (Z.abs_N z).

Definition decode_Z (bits : list bool) : option (Z * list bool) :=
  match bits with
  | negative :: rest =>
      '(n, rest') ← decode_N rest;
      Some (if negative then (- Z.of_N n)%Z else Z.of_N n, rest')
  | [] => None
  end.

(** A character: its code in eight bits. *)
Definition encode_char (c : ascii) : list bool :=
  encode_int 8 (N_of_ascii c).

Definition decode_char (bits : list bool) : option (ascii * list bool) :=
  '(n, rest) ← decode_int 8 bits;
  Some (ascii_of_N n, rest).

Section ListCodec.

Context {A : Type}.
Variable encode_item : A -> list bool.
Variable decode_item : list bool -> option (A * list bool).

Fixpoint decode_items (count : nat) (bits : list bool)
  : option (list A * list bool) :=
  match count with
  | O => Some ([], bits)
  | S count' =>
      '(x, rest) ← decode_item bits;
      '(xs, rest') ← decode_items count' rest;
      Some (x :: xs, rest')
  end.

(** A sequence: its length, then the items. *)
Definition encode_list (l : list A) : list bool :=
  (encode_N (N.of_nat (length l)) ++ flat_map encode_item l)%list.

Definition decode_list (bits : list bool) : option (list A * list bool) :=
  '(count, rest) ← decode_N bits;
  decode_items (N.to_nat count) rest.

End ListCodec.

Definition encode_string (s : string) : list bool :=
  encode_list encode_char (list_ascii_of_string s).

Definition decode_string (bits : list bool) : option (string * list bool) :=
  '(chars, rest) ← decode_list decode_char bits;
  Some (string_of_list_ascii chars, rest).

(** An optional UUID: whether it is there, then the UUID. *)
Definition encode_option_N (o : option N) : list bool :=
  match o with
  | Some n => true :: encode_N n
  | None => [false]
  end.

Definition decode_option_N (bits : list bool)
  : option (option N * list bool) :=
  match bits with
  | true :: rest =>
      '(n, rest') ← decode_N rest;
      Some (Some n, rest')
  | false :: rest => Some (None, rest)
  | [] => None
  end.

(** A preset, field by field. *)
Definition encode_preset (p : Preset) : list bool :=
  (encode_string (name p)
     ++ encode_N (uuid p)
     ++ encode_string (description p)
     ++ encode_option_N (base_preset_uuid p)
     ++ encode_string (short_name (game p))
     ++ encode_list encode_Z (configuration p))%list.

Definition decode_preset (bits : list bool) : option (Preset * list bool) :=
  '(name_field, bits1) ← decode_string bits;
  '(uuid_field, bits2) ← decode_N bits1;
  '(description_field, bits3) ← decode_string bits2;
  '(base_field, bits4) ← decode_option_N bits3;
  '(game_field, bits5) ← decode_string bits4;
  '(configuration_field, rest) ← decode_list decode_Z bits5;
  Some ({| name := name_field;
           uuid := uuid_field;
           description := description_field;
           base_preset_uuid := base_field;
           game := {| short_name := game_field |};
           configuration := configuration_field |}, rest).

(** What the encoder refuses: [ValueError] for a seed outside [0, 2^31) and
    for parameters without a player. *)
Inductive ValueError :=
| InvalidSeedNumber (seed : Z)
| NoPresets.

(** The parameters the spec calls valid: the seed in its domain and at
    least one player. *)
Definition valid_parameters (p : GeneratorParameters) : Prop :=
  0 <= seed_number p < 2 ^ 31 /\ presets p <> [].

(** The check made before anything is encoded. *)
Definition validate_parameters (p : GeneratorParameters)
  : result unit ValueError :=
  if negb ((0 <=? seed_number p)%Z && (seed_number p <? 2 ^ 31)%Z) then
    Raise (InvalidSeedNumber (seed_number p))
  else
    match presets p with
    | [] => Raise NoPresets
    | _ => Ok tt
    end.

(** The bits of the parameters under a version; the parameters are checked
    first, so that the seed fits its 31 bits. *)
Definition encode_parameters (version : N) (p : GeneratorParameters)
  : result (list bool) ValueError :=
  _ <-! validate_parameters p ;
  Ok (encode_N version
        ++ encode_int 31 (Z.to_N (seed_number p))
        ++ [spoiler p]
        ++ encode_list encode_preset (presets p))%list.

(** The fields after the version. *)
Definition decode_fields (bits : list bool) : option GeneratorParameters :=
  '(seed, bits1) ← decode_int 31 bits;
  '(spoiler_bit, bits2) ← match bits1 with
                          | b :: rest => Some (b, rest)
                          | [] => None
                          end;
  '(cs, rest) ← decode_list decode_preset bits2;
  match cs with
  | [] => None
  | _ =>
      if is_padding rest then
        Some {| seed_number := Z.of_N seed;
                spoiler := spoiler_bit;
                presets := cs |}
      else None
  end.

Section Codec.

(** The version of the running program. *)
Variable current_version : N.

Definition decode_parameters (bits : list bool)
  : result GeneratorParameters PermalinkError :=
  match decode_N bits with
  | None => Raise MalformedPermalink
  | Some (version, rest) =>
      if (version =? current_version)%N then
        match decode_fields rest with
        | Some p => Ok p
        | None => Raise MalformedPermalink
        end
      else Raise (UnsupportedVersion version)
  end.

(** The token written by a program of the given version. *)
Definition token_of_version (version : N) (p : GeneratorParameters)
  : result string ValueError :=
  bits <-! encode_parameters version p ;
  Ok (encode_text (length bits) bits).

(** [Permalink.as_base64_str] *)
Definition as_base64_str (permalink : Permalink) : result string ValueError :=
  token_of_version current_version (parameters permalink).

(** [Permalink.from_str] *)
Definition from_str (token : string) : result Permalink PermalinkError :=
  bits <-! decode_text token ;
  p <-! decode_parameters bits ;
  Ok (from_parameters p).

End Codec.

(** ** Further slots of the widget *)

(** [GenerateGameWidget.enable_buttons_with_background_tasks] *)
Definition enable_buttons_with_background_tasks (value : bool)
  (w : GenerateGameWidget) : GenerateGameWidget :=
  set_description_and_buttons (create_preset_description w) value w.

(** [GenerateGameWidget._on_select_preset] *)
Definition _on_select_preset (describe : Preset -> string)
  (str_uuid : N -> string) (w : GenerateGameWidget) : GenerateGameWidget :=
  let preset_data := current_preset_data w in
  let w1 := on_preset_changed describe str_uuid preset_data w in
  match preset_data with
  | Some p => set_selected_preset_uuid (Some (vp_uuid p)) w1
  | None => w1
  end.

(** What a slot that reads [self._current_preset_data] can raise:
    [AttributeError] when nothing is selected ([None.get_preset()]), or the
    [InvalidPreset] of the selected preset. *)
Inductive SlotError :=
| AttributeError
| InvalidPresetError (e : InvalidPreset).

(** [GenerateGameWidget._on_duplicate_preset]; [fork] is [Preset.fork], whose
    code is not among the sources. *)
Definition _on_duplicate_preset (fork : Preset -> Preset)
  (w : GenerateGameWidget) : result GenerateGameWidget SlotError :=
  match current_preset_data w with
  | None => Raise AttributeError
  | Some old_preset =>
      match get_preset old_preset with
      | Raise e => Raise (InvalidPresetError e)
      | Ok raw_preset => Ok (_add_new_preset (with_preset (fork raw_preset)) w)
      end
  end.

(** [GenerateGameWidget.on_options_changed].  [has_set] is the attribute
    [_has_set_from_last_selected], returned with its new value;
    [options_selected] is [options.selected_preset_uuid_for(self.game)],
    which names no preset when it is [None].  [select_preset] makes the tree
    select the preset; when that changes the tree's selection the tree emits
    [itemSelectionChanged], which [setup_ui] connects to
    [_on_select_preset]: [emits] tells whether it does. *)
Definition on_options_changed (describe : Preset -> string)
  (str_uuid : N -> string) (emits : bool) (options_selected : option N)
  (has_set : bool) (w : GenerateGameWidget) : bool * GenerateGameWidget :=
  if negb has_set then
    let found :=
      match options_selected with
      | Some u => preset_for_uuid (preset_manager w) u
      | None => None
      end in
    let chosen :=
      match found with
      | Some p => p
      | None => default_preset_for_game w
      end in
    let w1 := set_current_preset_data (Some chosen) w in
    (true, if emits then _on_select_preset describe str_uuid w1 else w1)
  else (has_set, w).

(** The three [clicked] connections made by [setup_ui]:
    [partial(self.generate_new_layout, True)],
    [partial(self.generate_new_layout, True, retries=0)] and
    [partial(self.generate_new_layout, False)]. *)
Definition create_generate_button_clicked :=
  generate_new_layout true None.
Definition create_generate_no_retry_button_clicked :=
  generate_new_layout true (Some 0).
Definition create_generate_race_button_clicked :=
  generate_new_layout false None.

(** The fields of a timestamp fit the widths [strftime] pads them to, as
    those of every [datetime] do. *)
Definition valid_datetime (t : datetime) : Prop :=
  (year t < 10000 /\ month t < 100 /\ day t < 100 /\
   hour t < 100 /\ minute t < 100 /\ second t < 100)%N.

(** "The presets sequence has length equal to the number of players and
    this number is at least 1", of every permalink [generate_new_layout]
    builds. *)
Definition one_preset_per_player_at_least_one : Prop :=
  forall (spoiler_arg : bool) (retries r : option Z) (entropy : Z)
         (w : GenerateGameWidget) (permalink : Permalink),
    generate_new_layout spoiler_arg retries entropy w = Ok (permalink, r) ->
    Z.of_nat (length (presets (parameters permalink)))
    = num_players_spin_box w /\
    (1 <= length (presets (parameters permalink)))%nat.

(** ** Concrete values used to exercise the definitions *)

Module Examples.

Definition prime3 : RandovaniaGame := {| short_name := "prime3" |}.
Definition prime2 : RandovaniaGame := {| short_name := "prime2" |}.

Definition starter : Preset :=
  {| name := "Starter Preset";
     uuid := 7%N;
     description := "Basic defaults.";
     base_preset_uuid := None;
     game := prime3;
     configuration := [100] |}.

Definition custom : Preset :=
  {| name := "My Preset";
     uuid := 9%N;
     description := "More energy.";
     base_preset_uuid := Some 7%N;
     game := prime3;
     configuration := [250] |}.

(** A preset file whose contents cannot be decoded. *)
Definition broken : VersionedPreset :=
  {| vp_name := "Broken";
     vp_uuid := 11%N;
     vp_base_preset_uuid := Some 7%N;
     vp_contents := Raise {| original_exception := "KeyError: 'elevators'" |} |}.

Definition empty_menu : PresetMenu :=
  {| menu_preset := None; enabled := fun _ => true |}.

Definition widget : GenerateGameWidget :=
  {| preset_manager :=
       <[9%N := with_preset custom]> (<[7%N := with_preset starter]> ∅);
     default_preset_for_game := with_preset starter;
     selected_preset_uuid := None;
     current_preset_data := None;
     num_players_spin_box := 1;
     create_preset_description := "";
     create_generate_button := true;
     create_generate_race_button := true;
     preset_menu := empty_menu;
     message_boxes := [] |}.

(** The file chooser's parser: one file holds a broken preset, any other
    file a copy of [custom] edited elsewhere. *)
Definition parse (path : string) : VersionedPreset :=
  if String.eqb path "broken.rdvpreset" then broken
  else with_preset custom.

Definition describe (p : Preset) : string := "<h4>Items</h4>".
Definition str_uuid (u : N) : string := "00000000-0000-0000-0000-00000000000b".

Definition layout : LayoutDescription :=
  {| all_games := [prime3; prime2];
     shareable_hash := "PTF5LXOA";
     shareable_word_hash := "Torvus Phazon Elevator";
     file_extension := "rdvgame";
     as_json := "{ schema_version: 14, game_modifications: [] }" |}.

(** A generator that reports twice and returns [layout]. *)
Definition generate_ok (p : GeneratorParameters) (retries : option Z)
  : list (string * Q) * result LayoutDescription Exception :=
  ([("Creating starting conditions", 0%Q); ("Placing items", (1 # 2)%Q)],
   Ok layout).

(** A generator that reports once and gives up. *)
Definition generate_fail (p : GeneratorParameters) (retries : option Z)
  : list (string * Q) * result LayoutDescription Exception :=
  ([("Creating starting conditions", 0%Q)],
   Raise (GenerationFailure "Unable to place all items")).

Definition open_ok (l : LayoutDescription) : result unit Exception := Ok tt.

Definition permalink : Permalink :=
  from_parameters
    {| seed_number := 42; spoiler := true; presets := [starter] |}.

Definition now : datetime :=
  {| year := 2023; month := 1; day := 9;
     hour := 13; minute := 5; second := 0 |}.

Definition history_dir : list string := ["home"; "user"; "game_history"].

Definition empty_fs : FileSystem := {| directories := ∅; files := ∅ |}.

End Examples.

(** ** More concrete values *)

Module Scenarios.

(** The widget of [Examples] with the built-in preset selected. *)
Definition starter_selected : GenerateGameWidget :=
  set_current_preset_data (Some (with_preset Examples.starter))
    Examples.widget.

(** A widget whose registry holds a broken preset, which is selected. *)
Definition broken_selected : GenerateGameWidget :=
  set_current_preset_data (Some Examples.broken)
    (set_preset_manager
       (<[11%N := Examples.broken]> (preset_manager Examples.widget))
       Examples.widget).

(** A fork: a copy under another name and UUID, based on the original. *)
Definition fork (p : Preset) : Preset :=
  {| name := name p ++ " Copy";
     uuid := (uuid p + 100)%N;
     description := description p;
     base_preset_uuid := Some (uuid p);
     game := game p;
     configuration := configuration p |}.

Definition later : datetime :=
  {| year := 2023; month := 1; day := 9;
     hour := 13; minute := 5; second := 1 |}.

(** The layout of [Examples] with its games listed the other way round. *)
Definition layout_reordered : LayoutDescription :=
  {| all_games := [Examples.prime2; Examples.prime3];
     shareable_hash := shareable_hash Examples.layout;
     shareable_word_hash := shareable_word_hash Examples.layout;
     file_extension := file_extension Examples.layout;
     as_json := as_json Examples.layout |}.

Definition open_fails (l : LayoutDescription) : result unit Exception :=
  Raise (OtherException "RuntimeError: no window").

(** The details window fails with the generator's own exception. *)
Definition open_generation_failure (l : LayoutDescription)
  : result unit Exception :=
  Raise (GenerationFailure "no patcher for this game").

(** A [save_to_file] that writes the serialised description at the path. *)
Definition write_file (path : list string) (d : LayoutDescription)
  (fs : FileSystem) : result FileSystem Exception :=
  Ok {| directories := directories fs;
        files := <[path := as_json d]> (files fs) |}.

(** A file system in which the path of the history directory is taken by a
    regular file. *)
Definition blocked_fs : FileSystem :=
  {| directories := {[ []; ["home"]; ["home"; "user"] ]};
     files := {[ Examples.history_dir := "not a directory" ]} |}.

(** The widget of [Examples] with the spin box at 0. *)
Definition no_players : GenerateGameWidget :=
  {| preset_manager := preset_manager Examples.widget;
     default_preset_for_game := default_preset_for_game Examples.widget;
     selected_preset_uuid := None;
     current_preset_data := None;
     num_players_spin_box := 0;
     create_preset_description := "";
     create_generate_button := true;
     create_generate_race_button := true;
     preset_menu := Examples.empty_menu;
     message_boxes := [] |}.

Definition generate_crash (p : GeneratorParameters) (retries : option Z)
  : list (string * Q) * result LayoutDescription Exception :=
  ([("Creating starting conditions", 0%Q)],
   Raise (OtherException "KeyError: 'prime3'")).

End Scenarios.

(** * Properties *)

(** ** The preset menu *)

Lemma is_fork_true (preset : option VersionedPreset) :
  is_fork preset = true <->
  exists p u, preset = Some p /\ vp_base_preset_uuid p = Some u.
Proof.
  split.
  - destruct preset as [p|]; simpl; [|discriminate].
    destruct (vp_base_preset_uuid p) as [u|] eqn:Hu; [|discriminate].
    intros _. exists p, u. auto.
  - intros (p & u & -> & Hu). simpl. now rewrite Hu.
Qed.

Lemma set_preset_enabled (preset : option VersionedPreset) (m : PresetMenu) :
  enabled (set_preset preset m) action_delete = is_fork preset /\
  enabled (set_preset preset m) action_history = is_fork preset /\
  enabled (set_preset preset m) action_export = is_fork preset.
Proof. repeat split. Qed.

(** C6: after the context menu sets its preset, the delete and the export
    action are enabled exactly when a preset is present and its
    [base_preset_uuid] is not null; for a root preset (null
    [base_preset_uuid]) both are disabled. *)
Theorem context_menu_delete_export_enabled
  (preset : option VersionedPreset) (w : GenerateGameWidget) :
  let menu := preset_menu (_on_tree_context_menu preset w) in
  (enabled menu action_delete = true <->
     exists p u, preset = Some p /\ vp_base_preset_uuid p = Some u) /\
  (enabled menu action_export = true <->
     exists p u, preset = Some p /\ vp_base_preset_uuid p = Some u) /\
  match preset with
  | Some p =>
      match vp_base_preset_uuid p with
      | Some _ => True
      | None => enabled menu action_delete = false /\
                enabled menu action_export = false
      end
  | None => enabled menu action_delete = false /\
            enabled menu action_export = false
  end.
Proof.
  intros menu. subst menu. unfold _on_tree_context_menu. simpl preset_menu.
  destruct (set_preset_enabled preset (preset_menu w)) as (Hd & _ & He).
  rewrite Hd, He. split; [apply is_fork_true|]. split; [apply is_fork_true|].
  destruct preset as [p|]; simpl; [|auto].
  destruct (vp_base_preset_uuid p); auto.
Qed.

(** ** Selecting a preset *)

Lemma append_assoc (s1 s2 s3 : string) :
  (s1 ++ s2) ++ s3 = s1 ++ (s2 ++ s3).
Proof.
  induction s1 as [|c s1 IH]; [reflexivity|].
  change (String c ((s1 ++ s2) ++ s3) = String c (s1 ++ (s2 ++ s3))).
  now rewrite IH.
Qed.

(** C10: [on_preset_changed] enables the generate and the generate-race
    button exactly when a preset is given and its [get_preset()] does not
    raise [InvalidPreset]; with no preset the text asks to select one, and
    with an invalid preset the text contains the original exception. *)
Theorem on_preset_changed_can_generate
  (describe : Preset -> string) (str_uuid : N -> string)
  (preset : option VersionedPreset) (w : GenerateGameWidget) :
  let w' := on_preset_changed describe str_uuid preset w in
  create_generate_race_button w' = create_generate_button w' /\
  (create_generate_button w' = true <->
     exists vp raw_preset, preset = Some vp /\ get_preset vp = Ok raw_preset) /\
  match preset with
  | None =>
      create_generate_button w' = false /\
      create_preset_description w' = "Please select a preset from the list."
  | Some vp =>
      match get_preset vp with
      | Ok _ => create_generate_button w' = true
      | Raise e =>
          create_generate_button w' = false /\
          exists before after,
            create_preset_description w'
            = before ++ original_exception e ++ after
      end
  end.
Proof.
  intros w'. subst w'. unfold on_preset_changed.
  destruct preset as [vp|]; simpl.
  - destruct (get_preset vp) as [raw|e] eqn:Hget; simpl.
    + repeat split; eauto.
    + split; [reflexivity|]. split.
      * split; [discriminate|].
        intros (vp' & raw & [= <-] & Hraw). congruence.
      * split; [reflexivity|].
        exists ("Preset " ++ vp_name vp
                  ++ " can't be used as it contains the following error:"
                  ++ newline).
        eexists. rewrite !append_assoc. reflexivity.
  - split; [reflexivity|]. split; [|auto].
    split; [discriminate|]. intros (vp & raw & [=] & _).
Qed.

(** ** Importing a preset file *)

(** C4: when the parsed file raises [InvalidPreset], [import_preset_file]
    shows the error box naming the file and changes neither the registry,
    nor the selection stored in the options, nor the selection of the
    tree. *)
Theorem import_invalid_preset_rejected
  (from_file_sync : string -> VersionedPreset) (path : string)
  (user_response : StandardButton) (uuid4 : N) (w : GenerateGameWidget)
  (e : InvalidPreset) :
  get_preset (from_file_sync path) = Raise e ->
  let w' := import_preset_file from_file_sync path user_response uuid4 w in
  preset_manager w' = preset_manager w /\
  selected_preset_uuid w' = selected_preset_uuid w /\
  current_preset_data w' = current_preset_data w /\
  message_boxes w'
  = (message_boxes w
       ++ [ {| box_kind := critical;
               box_title := "Error loading preset";
               box_text := ("The file at '" ++ path
                              ++ "' contains an invalid preset.")%string |} ])%list.
Proof.
  intros Hget w'. subst w'. unfold import_preset_file.
  rewrite Hget. simpl. auto.
Qed.

Lemma import_invalid_preset_rejected_witness :
  get_preset (Examples.parse "broken.rdvpreset")
  = Raise {| original_exception := "KeyError: 'elevators'" |} /\
  preset_manager
    (import_preset_file Examples.parse "broken.rdvpreset" Yes 12%N
       Examples.widget)
  = preset_manager Examples.widget.
Proof.
  split; [reflexivity|].
  apply (import_invalid_preset_rejected Examples.parse "broken.rdvpreset"
           Yes 12%N Examples.widget
           {| original_exception := "KeyError: 'elevators'" |}).
  reflexivity.
Defined.

(** C5: when the imported preset's UUID is already in the registry the user
    is asked, and (the UUID drawn by [uuid4] being a new one) the outcome
    follows the answer: on Yes the entry is overwritten with the imported
    preset; on No the existing entry stays and the imported preset is added
    under the drawn UUID; on Cancel the registry is unchanged.  So the
    existing entry changes only on Yes. *)
Theorem import_conflict_follows_decision
  (from_file_sync : string -> VersionedPreset) (path : string)
  (user_response : StandardButton) (uuid4 : N) (w : GenerateGameWidget)
  (raw_preset : Preset) (existing : VersionedPreset) :
  let imported := from_file_sync path in
  get_preset imported = Ok raw_preset ->
  preset_manager w !! vp_uuid imported = Some existing ->
  preset_manager w !! uuid4 = None ->
  let w' := import_preset_file from_file_sync path user_response uuid4 w in
  let renamed := with_preset (replace_uuid raw_preset uuid4) in
  (exists box,
      message_boxes w' = (message_boxes w ++ [box])%list /\
      box_kind box = warning /\ box_title box = "Preset ID conflict") /\
  match user_response with
  | Yes =>
      preset_manager w' = <[vp_uuid imported := imported]> (preset_manager w)
  | No =>
      preset_manager w' = <[uuid4 := renamed]> (preset_manager w) /\
      vp_uuid renamed = uuid4 /\
      get_preset renamed = Ok (replace_uuid raw_preset uuid4) /\
      preset_manager w' !! vp_uuid imported = Some existing /\
      preset_manager w' !! uuid4 = Some renamed
  | Cancel =>
      preset_manager w' = preset_manager w /\
      selected_preset_uuid w' = selected_preset_uuid w /\
      current_preset_data w' = current_preset_data w
  end /\
  (preset_manager w' !! vp_uuid imported <> Some existing ->
   user_response = Yes).
Proof.
  intros imported Hget Hexisting Hfresh w' renamed.
  assert (Hne : uuid4 <> vp_uuid imported) by congruence.
  subst w'. unfold import_preset_file. fold imported.
  rewrite Hget. unfold preset_for_uuid. rewrite Hexisting.
  split; [|split].
  - destruct user_response; simpl; eexists; (split; [reflexivity|]); auto.
  - destruct user_response; simpl.
    + reflexivity.
    + fold renamed. unfold add_new_preset. repeat split.
      * rewrite lookup_insert_ne; [exact Hexisting | exact Hne].
      * apply lookup_insert_eq.
    + auto.
  - destruct user_response; [reflexivity| |]; intros Hchanged; exfalso;
      apply Hchanged; simpl.
    + unfold add_new_preset.
      rewrite lookup_insert_ne; [exact Hexisting | exact Hne].
    + exact Hexisting.
Qed.

Lemma import_conflict_follows_decision_witness :
  preset_manager
    (import_preset_file Examples.parse "edited.rdvpreset" No 12%N
       Examples.widget) !! 9%N
  = Some (with_preset Examples.custom).
Proof.
  pose proof (import_conflict_follows_decision Examples.parse
                "edited.rdvpreset" No 12%N Examples.widget
                Examples.custom (with_preset Examples.custom)
                eq_refl eq_refl eq_refl) as H.
  simpl in H. destruct H as (_ & (_ & _ & _ & H & _) & _). exact H.
Defined.

(** ** Generating a new layout *)

Lemma randint_range (a b entropy : Z) :
  a <= b -> a <= randint a b entropy <= b.
Proof.
  intros Hab. unfold randint.
  pose proof (Z.mod_pos_bound entropy (b - a + 1)). lia.
Qed.

Lemma randint_reaches (a b n : Z) :
  a <= n <= b -> randint a b (n - a) = n.
Proof.
  intros Hn. unfold randint. rewrite Z.mod_small by lia. lia.
Qed.

Lemma generate_new_layout_parameters
  (spoiler_arg : bool) (retries r : option Z) (entropy : Z)
  (w : GenerateGameWidget) (permalink : Permalink) :
  generate_new_layout spoiler_arg retries entropy w = Ok (permalink, r) ->
  exists raw_preset,
    get_preset (preset w) = Ok raw_preset /\
    parameters permalink
    = {| seed_number := randint 0 (2 ^ 31) entropy;
         spoiler := spoiler_arg;
         presets := list_times raw_preset (num_players_spin_box w) |}.
Proof.
  unfold generate_new_layout.
  destruct (get_preset (preset w)) as [raw|e]; simpl; [|discriminate].
  intros [= <- _]. exists raw. auto.
Qed.

(** What the code guarantees about the seed: the closed range. *)
Lemma generate_new_layout_seed_range
  (spoiler_arg : bool) (retries r : option Z) (entropy : Z)
  (w : GenerateGameWidget) (permalink : Permalink) :
  generate_new_layout spoiler_arg retries entropy w = Ok (permalink, r) ->
  0 <= seed_number (parameters permalink) <= 2 ^ 31.
Proof.
  intros H. apply generate_new_layout_parameters in H as (raw & _ & ->).
  simpl. apply randint_range. lia.
Qed.

(** For every widget with a usable preset some draw gives the seed
    [2 ^ 31]. *)
Lemma generate_new_layout_seed_upper_end_reachable
  (spoiler_arg : bool) (retries : option Z) (w : GenerateGameWidget)
  (raw_preset : Preset) :
  get_preset (preset w) = Ok raw_preset ->
  exists entropy permalink,
    generate_new_layout spoiler_arg retries entropy w = Ok (permalink, retries)
    /\ seed_number (parameters permalink) = 2 ^ 31.
Proof.
  intros Hraw. exists (2 ^ 31 - 0). eexists.
  unfold generate_new_layout. rewrite Hraw. cbn [result_bind].
  split; [reflexivity|]. cbn [parameters seed_number].
  apply randint_reaches. lia.
Qed.

(** C1: the seed handed to [GeneratorParameters] is drawn by
    [random.randint(0, 2 ** 31)], whose upper end is included: there is a run
    in which the seed is [2 ^ 31], outside the domain [0, 2^31). *)
Theorem generate_new_layout_seed_reaches_upper_end :
  exists permalink,
    generate_new_layout true None (2 ^ 31) Examples.widget
    = Ok (permalink, None) /\
    seed_number (parameters permalink) = 2 ^ 31 /\
    ~ (0 <= seed_number (parameters permalink) < 2 ^ 31).
Proof.
  eexists. split; [reflexivity|]. split; [reflexivity|].
  simpl. unfold randint. rewrite Z.mod_small by lia. lia.
Qed.

Lemma length_list_times {A} (x : A) (n : Z) :
  length (list_times x n) = Z.to_nat n.
Proof. apply repeat_length. Qed.

(** The code has no guard of its own: with a spin box at 0 or below the
    list of presets is empty. *)
Lemma list_times_nonpositive {A} (x : A) (n : Z) :
  n <= 0 -> list_times x n = [].
Proof.
  intros Hn. unfold list_times.
  replace (Z.to_nat n) with O by lia. reflexivity.
Qed.

(** C7, as stated, fails: with the spin box at 0 [generate_new_layout]
    builds parameters without any preset. *)
Lemma generate_new_layout_no_players : ~ one_preset_per_player_at_least_one.
Proof.
  intros H.
  destruct (H true None None 42 Scenarios.no_players
              (from_parameters
                 {| seed_number := randint 0 (2 ^ 31) 42;
                    spoiler := true;
                    presets := [] |})
              eq_refl) as [_ Hone].
  simpl in Hone. lia.
Qed.

(** C7, amended: the parameters that [generate_new_layout] builds hold the
    widget's preset as many times as the spin box says, and none when the
    spin box is at 0 or below; so the number of presets is the number of
    players whenever that is not negative, and it is at least 1 exactly when
    the spin box holds at least 1. *)
Theorem generate_new_layout_presets_count
  (spoiler_arg : bool) (retries : option Z) (entropy : Z)
  (w : GenerateGameWidget) :
  match generate_new_layout spoiler_arg retries entropy w with
  | Ok (permalink, _) =>
      let count := length (presets (parameters permalink)) in
      count = Z.to_nat (num_players_spin_box w) /\
      Z.of_nat count = Z.max 0 (num_players_spin_box w) /\
      ((1 <= count)%nat <-> 1 <= num_players_spin_box w) /\
      Forall (fun p => get_preset (preset w) = Ok p)
             (presets (parameters permalink))
  | Raise _ => True
  end.
Proof.
  destruct (generate_new_layout spoiler_arg retries entropy w)
    as [[permalink r]|e] eqn:H; [|exact I].
  apply generate_new_layout_parameters in H as (raw & Hraw & ->). simpl.
  rewrite length_list_times. repeat split; try lia.
  rewrite Hraw. apply List.Forall_forall. intros p Hp.
  apply repeat_spec in Hp. now subst.
Qed.

(** ** The background work *)

Lemma progress_updates_app (es1 es2 : list Event) :
  progress_updates (es1 ++ es2)
  = (progress_updates es1 ++ progress_updates es2)%list.
Proof. unfold progress_updates. apply omap_app. Qed.

Lemma progress_updates_of_updates (updates : list (string * Q)) :
  progress_updates (map (fun u => progress_update (fst u) (snd u)) updates)
  = updates.
Proof.
  induction updates as [|[m f] updates IH]; [reflexivity|].
  simpl. unfold progress_updates in *. simpl. now rewrite IH.
Qed.



(** Three runs, evaluated: a success, a failure of the generator, and a
    failure after the success update. *)
Example work_runs :
  run_fractions Scenarios.write_file Examples.generate_ok Examples.open_ok
    Examples.permalink (Some 0) Examples.now Examples.history_dir
    Examples.empty_fs
  = [0%Q; (1 # 2)%Q; 1%Q] /\
  run_fractions Scenarios.write_file Examples.generate_fail Examples.open_ok
    Examples.permalink None Examples.now Examples.history_dir
    Examples.empty_fs
  = [0%Q; (-1 # 1)%Q] /\
  run_fractions Scenarios.write_file Examples.generate_ok
    Scenarios.open_generation_failure Examples.permalink None Examples.now
    Examples.history_dir Examples.empty_fs
  = [0%Q; (1 # 2)%Q; 1%Q; (-1 # 1)%Q].
Proof. repeat split; vm_compute; reflexivity. Qed.

(** ** Persisting a layout *)





Lemma elem_of_ancestors (p dir : list string) :
  p ∈ ancestors dir <-> p `prefix_of` dir.
Proof.
  revert p. induction dir as [|c dir IH]; intros p; simpl.
  - rewrite list_elem_of_singleton. split.
    + intros ->. reflexivity.
    + apply prefix_nil_inv.
  - rewrite elem_of_cons, list_elem_of_fmap. split.
    + intros [-> | (q & -> & Hq)]; [apply prefix_nil|].
      apply prefix_cons, IH, Hq.
    + destruct p as [|c' p]; [auto|]. intros Hp. right.
      pose proof (prefix_cons_inv_1 _ _ _ _ Hp) as ->.
      exists p. split; [reflexivity|].
      apply IH. exact (prefix_cons_inv_2 _ _ _ _ Hp).
Qed.

Lemma is_file_true (fs : FileSystem) (path : list string) :
  is_file fs path = true <-> is_Some (files fs !! path).
Proof. unfold is_file. apply bool_decide_eq_true. Qed.

Lemma is_file_false (fs : FileSystem) (path : list string) :
  is_file fs path = false <-> files fs !! path = None.
Proof.
  unfold is_file. rewrite bool_decide_eq_false.
  symmetry. apply eq_None_not_Some.
Qed.




(** The name of a layout of two games generated on 9 January 2023. *)
Example layout_file_name_example :
  layout_file_name Examples.now Examples.layout
  = "2023-01-09-13-05-00_prime2-prime3_Torvus Phazon Elevator.rdvgame".
Proof. vm_compute. reflexivity. Qed.

(** ** The Corruption configuration *)

Lemma in_domain_energy_per_tank (v : Z) :
  in_domain energy_per_tank_metadata v = true <-> 1 <= v <= 1000.
Proof.
  unfold in_domain, energy_per_tank_metadata. simpl.
  rewrite Z.mod_1_r. rewrite !andb_true_iff, !Z.leb_le, Z.eqb_eq. lia.
Qed.

(** C9: a [CorruptionConfiguration] that was constructed holds an
    [energy_per_tank] within [1, 1000], and it is the value that was given;
    a value outside the domain makes the construction fail with an error
    naming the field and the value. *)
Theorem new_CorruptionConfiguration_energy_per_tank
  {TeleporterConfiguration LayoutLogicalResourceAction : Type}
  (elevators_arg : TeleporterConfiguration) (energy_per_tank_arg : Z)
  (logical_resource_action_arg : LayoutLogicalResourceAction)
  (start_with_corrupted_hypermode_arg : bool) :
  match new_CorruptionConfiguration elevators_arg energy_per_tank_arg
          logical_resource_action_arg start_with_corrupted_hypermode_arg with
  | Ok c =>
      1 <= energy_per_tank c <= 1000 /\
      energy_per_tank c = energy_per_tank_arg
  | Raise err =>
      ~ (1 <= energy_per_tank_arg <= 1000) /\
      error_field err = "energy_per_tank" /\
      error_value err = energy_per_tank_arg
  end.
Proof.
  unfold new_CorruptionConfiguration.
  destruct (in_domain energy_per_tank_metadata energy_per_tank_arg) eqn:Hd;
    simpl.
  - apply in_domain_energy_per_tank in Hd. auto.
  - split; [|auto]. intros Hin. apply in_domain_energy_per_tank in Hin.
    congruence.
Qed.

(** ** The permalink codec *)

Lemma decode_int_encode_int (width : nat) (n : N) (rest : list bool) :
  decode_int width (encode_int width n ++ rest)%list
  = Some ((n mod 2 ^ N.of_nat width)%N, rest).
Proof.
  revert n. induction width as [|w IH]; intros n.
  - simpl. now rewrite N.mod_1_r.
  - cbn [encode_int decode_int app]. rewrite IH. cbn.
    do 2 f_equal.
    rewrite Nat2N.inj_succ, N.pow_succ_r', N.Div0.mod_mul_r.
    rewrite <- N.bit0_odd, N.bit0_mod, N.div2_div. reflexivity.
Qed.

(** Every group of at most six bits is read back, padded to six. *)
Lemma bits_of_symbol_of_bits (group : list bool) :
  (length group <= 6)%nat ->
  bits_of_symbol (symbol_of_bits group)
  = Some (group ++ repeat false (6 - length group))%list.
Proof.
  intros Hlen.
  repeat (destruct group as [|[] group]; [vm_compute; reflexivity| |]);
    try (vm_compute; reflexivity); simpl in Hlen; lia.
Qed.

Lemma encode_text_nil (fuel : nat) : encode_text fuel [] = EmptyString.
Proof. destruct fuel; reflexivity. Qed.

(** The text layer returns the bits, followed by fewer than six zero bits. *)
Lemma decode_text_encode_text (fuel : nat) (bits : list bool) :
  (length bits <= fuel)%nat ->
  exists k, (k < 6)%nat /\
    decode_text (encode_text fuel bits) = Ok (bits ++ repeat false k)%list.
Proof.
  revert bits. induction fuel as [|fuel IH]; intros bits Hlen.
  - destruct bits; [|simpl in Hlen; lia]. exists O. split; [lia|reflexivity].
  - destruct bits as [|b bits'] eqn:Hbits.
    { exists O. split; [lia|reflexivity]. }
    rewrite <- Hbits in *. assert (Hpos : (0 < length bits)%nat)
      by (rewrite Hbits; simpl; lia).
    replace (encode_text (S fuel) bits)
      with (String (symbol_of_bits (take 6 bits))
              (encode_text fuel (drop 6 bits)))
      by (rewrite Hbits; reflexivity).
    cbn [decode_text].
    rewrite bits_of_symbol_of_bits by (rewrite length_take; lia).
    destruct (le_lt_dec 6 (length bits)) as [Hge|Hlt].
    + destruct (IH (drop 6 bits)) as (k & Hk & Hdec).
      { rewrite length_drop. lia. }
      rewrite Hdec. simpl. exists k. split; [exact Hk|].
      rewrite length_take, Nat.min_l by lia. simpl.
      rewrite app_nil_r, app_assoc, take_drop. reflexivity.
    + rewrite drop_ge by lia. rewrite encode_text_nil. simpl.
      rewrite take_ge by lia. exists (6 - length bits)%nat.
      split; [lia|]. now rewrite app_nil_r.
Qed.

Lemma is_padding_repeat (k : nat) :
  (k < 6)%nat -> is_padding (repeat false k) = true.
Proof.
  intros Hk. unfold is_padding. rewrite repeat_length.
  apply andb_true_intro. split; [now apply Nat.ltb_lt|].
  clear Hk. induction k; simpl; auto.
Qed.

Lemma decode_positive_encode (p : positive) (rest : list bool) :
  decode_positive (encode_positive p ++ rest)%list = Some (p, rest).
Proof.
  induction p as [q IH|q IH|]; simpl; [| |reflexivity];
    rewrite IH; reflexivity.
Qed.

Lemma decode_N_encode (n : N) (rest : list bool) :
  decode_N (encode_N n ++ rest)%list = Some (n, rest).
Proof.
  destruct n as [|p]; simpl; [reflexivity|].
  now rewrite decode_positive_encode.
Qed.

Lemma decode_Z_encode (z : Z) (rest : list bool) :
  decode_Z (encode_Z z ++ rest)%list = Some (z, rest).
Proof.
  unfold decode_Z, encode_Z. simpl. rewrite decode_N_encode. simpl.
  rewrite N2Z.inj_abs_N.
  destruct (Z.ltb_spec z 0); do 2 f_equal; lia.
Qed.

Lemma decode_char_encode (c : ascii) (rest : list bool) :
  decode_char (encode_char c ++ rest)%list = Some (c, rest).
Proof.
  unfold decode_char, encode_char. rewrite decode_int_encode_int. simpl.
  rewrite N.mod_small by apply N_ascii_bounded.
  now rewrite ascii_N_embedding.
Qed.

Lemma decode_option_N_encode (o : option N) (rest : list bool) :
  decode_option_N (encode_option_N o ++ rest)%list = Some (o, rest).
Proof.
  destruct o as [n|]; simpl; [|reflexivity].
  now rewrite decode_N_encode.
Qed.

Section ListRoundTrip.

Context {A : Type}.
Variable encode_item : A -> list bool.
Variable decode_item : list bool -> option (A * list bool).
Hypothesis decode_item_encode :
  forall x rest, decode_item (encode_item x ++ rest)%list = Some (x, rest).

Lemma decode_items_encode (l : list A) (rest : list bool) :
  decode_items decode_item (length l) (flat_map encode_item l ++ rest)%list
  = Some (l, rest).
Proof.
  induction l as [|x l IH]; [reflexivity|].
  simpl. rewrite <- app_assoc, decode_item_encode. simpl.
  rewrite IH. reflexivity.
Qed.

Lemma decode_list_encode (l : list A) (rest : list bool) :
  decode_list decode_item (encode_list encode_item l ++ rest)%list
  = Some (l, rest).
Proof.
  unfold decode_list, encode_list.
  rewrite <- app_assoc, decode_N_encode. simpl.
  rewrite Nat2N.id. apply decode_items_encode.
Qed.

End ListRoundTrip.

Lemma decode_string_encode (s : string) (rest : list bool) :
  decode_string (encode_string s ++ rest)%list = Some (s, rest).
Proof.
  unfold decode_string, encode_string.
  rewrite (decode_list_encode _ _ decode_char_encode). simpl.
  now rewrite string_of_list_ascii_of_string.
Qed.

Lemma decode_preset_encode (c : Preset) (rest : list bool) :
  decode_preset (encode_preset c ++ rest)%list = Some (c, rest).
Proof.
  unfold decode_preset, encode_preset. rewrite <- !app_assoc.
  rewrite decode_string_encode. cbn [mbind option_bind].
  rewrite decode_N_encode. cbn [mbind option_bind].
  rewrite decode_string_encode. cbn [mbind option_bind].
  rewrite decode_option_N_encode. cbn [mbind option_bind].
  rewrite decode_string_encode. cbn [mbind option_bind].
  rewrite (decode_list_encode _ _ decode_Z_encode). cbn [mbind option_bind].
  destruct c as [? ? ? ? [?] ?]. reflexivity.
Qed.

Lemma validate_parameters_ok (p : GeneratorParameters) :
  validate_parameters p = Ok tt <-> valid_parameters p.
Proof.
  unfold validate_parameters, valid_parameters.
  destruct (Z.leb_spec 0 (seed_number p));
    destruct (Z.ltb_spec (seed_number p) (2 ^ 31)); simpl;
    try (split; [discriminate | lia]).
  destruct (presets p) as [|c cs].
  - split; [discriminate|]. intros [_ Hne]. congruence.
  - split; [intros _; split; [lia | discriminate] | reflexivity].
Qed.

(** The fields of valid parameters are read back, whatever padding the text
    layer added. *)
Lemma decode_fields_encode (p : GeneratorParameters) (k : nat) :
  valid_parameters p ->
  (k < 6)%nat ->
  decode_fields
    (encode_int 31 (Z.to_N (seed_number p))
       ++ [spoiler p]
       ++ encode_list encode_preset (presets p) ++ repeat false k)%list
  = Some p.
Proof.
  intros (Hseed & Hpresets) Hk. unfold decode_fields.
  rewrite decode_int_encode_int. cbn [mbind option_bind app].
  rewrite (decode_list_encode _ _ decode_preset_encode).
  cbn [mbind option_bind]. rewrite (is_padding_repeat _ Hk).
  assert (Hs : Z.of_N (Z.to_N (seed_number p) mod 2 ^ N.of_nat 31)
               = seed_number p).
  { rewrite N.mod_small.
    - apply Z2N.id. lia.
    - change (2 ^ N.of_nat 31)%N with (Z.to_N (2 ^ 31)).
      apply Z2N.inj_lt; lia. }
  rewrite Hs. destruct p as [seed sp ps]. simpl in *.
  destruct ps; [congruence | reflexivity].
Qed.

(** What reading a token written by a program of version [version] gives. *)
Lemma from_str_token_of_version
  (current_version version : N) (p : GeneratorParameters) :
  valid_parameters p ->
  exists token,
    token_of_version version p = Ok token /\
    from_str current_version token
    = if (version =? current_version)%N
      then Ok (from_parameters p)
      else Raise (UnsupportedVersion version).
Proof.
  intros Hvalid. unfold token_of_version, encode_parameters.
  rewrite (proj2 (validate_parameters_ok p) Hvalid). cbn [result_bind].
  eexists. split; [reflexivity|]. unfold from_str.
  set (bits := (encode_N version
                  ++ encode_int 31 (Z.to_N (seed_number p))
                  ++ [spoiler p]
                  ++ encode_list encode_preset (presets p))%list).
  destruct (decode_text_encode_text (length bits) bits)
    as (k & Hk & Hdec); [lia|].
  rewrite Hdec. cbn [result_bind].
  unfold decode_parameters. subst bits.
  rewrite <- !app_assoc, decode_N_encode.
  destruct (version =? current_version)%N; [|reflexivity].
  rewrite (decode_fields_encode _ _ Hvalid Hk). reflexivity.
Qed.

(** The check before encoding: parameters that are not valid get no
    token. *)
Lemma token_of_version_validates (version : N) (p : GeneratorParameters) :
  ~ valid_parameters p ->
  exists e, token_of_version version p = Raise e.
Proof.
  intros Hinvalid. unfold token_of_version, encode_parameters.
  destruct (validate_parameters p) as [[]|e] eqn:Hv.
  - apply validate_parameters_ok in Hv. contradiction.
  - exists e. reflexivity.
Qed.

(** C2: for valid parameters (the seed in [0, 2^31), at least one player)
    the permalink text is written, and reading it gives the same parameters
    back; the text written for them by a program of any other version is
    refused with [UnsupportedVersion], carrying that version, and not read
    as parameters. *)
Theorem permalink_round_trip
  (current_version : N) (p : GeneratorParameters) :
  valid_parameters p ->
  (exists token,
      as_base64_str current_version (from_parameters p) = Ok token /\
      from_str current_version token = Ok (from_parameters p)) /\
  forall other_version : N,
    other_version <> current_version ->
    exists token,
      token_of_version other_version p = Ok token /\
      from_str current_version token
      = Raise (UnsupportedVersion other_version).
Proof.
  intros Hvalid. split.
  - unfold as_base64_str. cbn [parameters].
    destruct (from_str_token_of_version current_version current_version p
                Hvalid) as (token & Htoken & Hread).
    exists token. split; [exact Htoken|].
    now rewrite N.eqb_refl in Hread.
  - intros other_version Hother.
    destruct (from_str_token_of_version current_version other_version p
                Hvalid) as (token & Htoken & Hread).
    exists token. split; [exact Htoken|].
    destruct (N.eqb_spec other_version current_version);
      [contradiction | exact Hread].
Qed.

Lemma permalink_round_trip_witness :
  exists token,
    as_base64_str 14 Examples.permalink = Ok token /\
    from_str 14 token = Ok Examples.permalink.
Proof.
  apply (permalink_round_trip 14 (parameters Examples.permalink)).
  split; [simpl; lia | discriminate].
Defined.

(** A program of version 14 reads the text of one of version 270 as
    unsupported, and an empty text or one with a foreign character as
    malformed. *)
Example permalink_other_versions :
  (exists token,
      token_of_version 270 (parameters Examples.permalink) = Ok token /\
      from_str 14 token = Raise (UnsupportedVersion 270)) /\
  from_str 14 "" = Raise MalformedPermalink /\
  from_str 14 "D!" = Raise MalformedPermalink.
Proof.
  split; [|split; vm_compute; reflexivity].
  eexists. split; [vm_compute; reflexivity|]. vm_compute. reflexivity.
Qed.

(** * Further properties *)

(** ** The preset menu *)

(** X1: [set_preset] stores the preset and enables customize, duplicate, map
    tracker and required tricks exactly when a preset is given, root preset
    or not; it leaves import and view-deleted as they were. *)
Theorem set_preset_preset_actions
  (preset : option VersionedPreset) (m : PresetMenu) :
  let m' := set_preset preset m in
  menu_preset m' = preset /\
  (forall a,
      In a [action_customize; action_duplicate; action_map_tracker;
            action_required_tricks] ->
      (enabled m' a = true <-> exists p, preset = Some p)) /\
  enabled m' action_import = enabled m action_import /\
  enabled m' action_view_deleted = enabled m action_view_deleted.
Proof.
  intros m'. subst m'. split; [reflexivity|]. split; [|split; reflexivity].
  intros a Ha.
  assert (He : enabled (set_preset preset m) a = is_not_None preset).
  { simpl in Ha. destruct Ha as [<-|[<-|[<-|[<-|[]]]]]; reflexivity. }
  rewrite He. destruct preset as [p|]; simpl.
  - split; eauto.
  - split; [discriminate|]. intros [p [=]].
Qed.

(** ** Adding and importing presets *)

(** X2: after [_add_new_preset] the registry returns the preset under its
    UUID, the options and the tree select it, and every other entry of the
    registry is as before; no box is shown. *)
Theorem add_new_preset_then_lookup
  (p : VersionedPreset) (w : GenerateGameWidget) :
  let w' := _add_new_preset p w in
  preset_for_uuid (preset_manager w') (vp_uuid p) = Some p /\
  selected_preset_uuid w' = Some (vp_uuid p) /\
  current_preset_data w' = Some p /\
  (forall u, u <> vp_uuid p ->
     preset_for_uuid (preset_manager w') u
     = preset_for_uuid (preset_manager w) u) /\
  message_boxes w' = message_boxes w.
Proof.
  intros w'. subst w'. unfold _add_new_preset, preset_for_uuid,
    add_new_preset. simpl.
  split; [apply lookup_insert_eq|]. repeat split.
  intros u Hu. now rewrite lookup_insert_ne.
Qed.

(** X3: importing a valid preset whose UUID is not in the registry adds it
    without asking: no box is shown, the registry grows by that one entry,
    and neither the answer nor the [uuid4] value plays a part. *)
Theorem import_new_preset_added
  (from_file_sync : string -> VersionedPreset) (path : string)
  (user_response : StandardButton) (uuid4 : N) (w : GenerateGameWidget)
  (raw_preset : Preset) :
  let imported := from_file_sync path in
  get_preset imported = Ok raw_preset ->
  preset_manager w !! vp_uuid imported = None ->
  let w' := import_preset_file from_file_sync path user_response uuid4 w in
  preset_manager w' = <[vp_uuid imported := imported]> (preset_manager w) /\
  size (preset_manager w') = S (size (preset_manager w)) /\
  message_boxes w' = message_boxes w /\
  current_preset_data w' = Some imported /\
  forall other_response other_uuid4,
    import_preset_file from_file_sync path other_response other_uuid4 w = w'.
Proof.
  intros imported Hget Hnew w'. subst w'.
  unfold import_preset_file. fold imported. rewrite Hget.
  unfold preset_for_uuid. rewrite Hnew. simpl.
  split; [reflexivity|]. split; [|auto].
  unfold add_new_preset. now apply map_size_insert_None.
Qed.

Lemma import_new_preset_added_witness :
  size (preset_manager
          (import_preset_file (fun _ => with_preset (Scenarios.fork
                                                       Examples.custom))
             "copy.rdvpreset" Cancel 12%N Examples.widget))
  = 3%nat.
Proof.
  apply (import_new_preset_added
           (fun _ => with_preset (Scenarios.fork Examples.custom))
           "copy.rdvpreset" Cancel 12%N Examples.widget
           (Scenarios.fork Examples.custom) eq_refl eq_refl).
Defined.

(** X4: importing a valid file and answering Yes to any conflict, then
    importing the same file again and answering Yes, leaves the registry as
    it was after the first import; the second import asks exactly once. *)
Theorem import_twice_overwrite
  (from_file_sync : string -> VersionedPreset) (path : string)
  (uuid4 uuid4' : N) (w : GenerateGameWidget) (raw_preset : Preset) :
  get_preset (from_file_sync path) = Ok raw_preset ->
  let w1 := import_preset_file from_file_sync path Yes uuid4 w in
  let w2 := import_preset_file from_file_sync path Yes uuid4' w1 in
  preset_manager w2 = preset_manager w1 /\
  preset_manager w1 !! vp_uuid (from_file_sync path)
  = Some (from_file_sync path) /\
  length (message_boxes w2) = S (length (message_boxes w1)).
Proof.
  intros Hget w1 w2.
  assert (H1 : preset_manager w1
               = <[vp_uuid (from_file_sync path) := from_file_sync path]>
                   (preset_manager w)).
  { subst w1. unfold import_preset_file. rewrite Hget.
    destruct (preset_for_uuid (preset_manager w)
                (vp_uuid (from_file_sync path))); reflexivity. }
  assert (Hl : preset_manager w1 !! vp_uuid (from_file_sync path)
               = Some (from_file_sync path))
    by (rewrite H1; apply lookup_insert_eq).
  assert (H2 : exists box,
             w2 = _add_new_preset (from_file_sync path)
                    (show_message_box box w1)).
  { subst w2. unfold import_preset_file at 1. rewrite Hget.
    unfold preset_for_uuid. rewrite Hl. eexists. reflexivity. }
  destruct H2 as (box & ->). simpl.
  split; [|split; [exact Hl|]].
  - unfold add_new_preset. rewrite H1. apply insert_insert_eq.
  - rewrite length_app. simpl. lia.
Qed.

Lemma import_twice_overwrite_witness :
  preset_manager
    (import_preset_file Examples.parse "edited.rdvpreset" Yes 13%N
       (import_preset_file Examples.parse "edited.rdvpreset" Yes 12%N
          Examples.widget))
  = preset_manager
      (import_preset_file Examples.parse "edited.rdvpreset" Yes 12%N
         Examples.widget).
Proof.
  apply (import_twice_overwrite Examples.parse "edited.rdvpreset" 12%N 13%N
           Examples.widget Examples.custom eq_refl).
Defined.

(** ** Selecting and generating *)

(** X5: [_on_select_preset] stores the UUID of the selected preset in the
    options whether the preset is usable or not, and keeps the stored UUID
    when nothing is selected; the generate button is enabled exactly for a
    usable selection, and the registry is not touched. *)
Theorem on_select_preset_stores_selection
  (describe : Preset -> string) (str_uuid : N -> string)
  (w : GenerateGameWidget) :
  let w' := _on_select_preset describe str_uuid w in
  selected_preset_uuid w'
  = match current_preset_data w with
    | Some p => Some (vp_uuid p)
    | None => selected_preset_uuid w
    end /\
  (create_generate_button w' = true <->
     exists p raw_preset,
       current_preset_data w = Some p /\ get_preset p = Ok raw_preset) /\
  preset_manager w' = preset_manager w /\
  current_preset_data w' = current_preset_data w.
Proof.
  intros w'. subst w'. unfold _on_select_preset, on_preset_changed.
  destruct (current_preset_data w) as [p|] eqn:Hcur.
  - destruct (get_preset p) as [raw|e] eqn:Hget; simpl; rewrite ?Hcur.
    + repeat split; eauto.
    + repeat split; try discriminate.
      intros (p' & raw & [= <-] & Hraw). congruence.
  - simpl. repeat split; try discriminate; auto.
    intros (p & raw & [=] & _).
Qed.

(** X6: when [_on_select_preset] leaves the generate button enabled, a click
    on it builds a permalink: [generate_new_layout] does not raise
    [InvalidPreset], it asks for a spoiler and the default retries, and every
    player slot holds the selected preset. *)
Theorem enabled_button_generates
  (describe : Preset -> string) (str_uuid : N -> string) (entropy : Z)
  (w : GenerateGameWidget) :
  let w' := _on_select_preset describe str_uuid w in
  create_generate_button w' = true ->
  exists p raw_preset permalink,
    current_preset_data w = Some p /\
    get_preset p = Ok raw_preset /\
    create_generate_button_clicked entropy w' = Ok (permalink, None) /\
    spoiler (parameters permalink) = true /\
    presets (parameters permalink)
    = list_times raw_preset (num_players_spin_box w).
Proof.
  intros w' Hbutton. subst w'. revert Hbutton.
  unfold _on_select_preset, on_preset_changed.
  destruct (current_preset_data w) as [p|] eqn:Hcur; [|discriminate].
  destruct (get_preset p) as [raw|e] eqn:Hraw; [|discriminate].
  intros _. exists p, raw. eexists.
  split; [reflexivity|]. split; [exact Hraw|].
  unfold create_generate_button_clicked, generate_new_layout, preset.
  simpl. rewrite Hcur, Hraw. simpl. auto.
Qed.

Lemma enabled_button_generates_witness :
  exists permalink,
    create_generate_button_clicked 42
      (_on_select_preset Examples.describe Examples.str_uuid
         Scenarios.starter_selected)
    = Ok (permalink, None).
Proof.
  destruct (enabled_button_generates Examples.describe Examples.str_uuid 42
              Scenarios.starter_selected eq_refl)
    as (p & raw & permalink & _ & _ & H & _).
  exists permalink. exact H.
Defined.

(** X7: [generate_new_layout] returns a permalink exactly when the widget's
    preset (the selection, or the default preset when nothing is selected)
    is usable, and otherwise raises that preset's [InvalidPreset]; the
    spoiler flag and the retries are handed on as given. *)
Theorem generate_new_layout_outcome
  (spoiler_arg : bool) (retries : option Z) (entropy : Z)
  (w : GenerateGameWidget) :
  let chosen := match current_preset_data w with
                | Some p => p
                | None => default_preset_for_game w
                end in
  match generate_new_layout spoiler_arg retries entropy w with
  | Ok (permalink, r) =>
      r = retries /\
      spoiler (parameters permalink) = spoiler_arg /\
      exists raw_preset,
        get_preset chosen = Ok raw_preset /\
        presets (parameters permalink)
        = list_times raw_preset (num_players_spin_box w)
  | Raise e => get_preset chosen = Raise e
  end.
Proof.
  intros chosen. unfold generate_new_layout, preset. fold chosen.
  destruct (get_preset chosen) as [raw|e]; simpl; eauto.
Qed.

(** X8: whatever the random source gives, the seed of the permalink that
    [generate_new_layout] builds lies in the closed range from 0 to 2^31,
    and it is the draw reduced to that range. *)
Theorem generate_new_layout_seed_closed_range
  (spoiler_arg : bool) (retries : option Z) (entropy : Z)
  (w : GenerateGameWidget) :
  match generate_new_layout spoiler_arg retries entropy w with
  | Ok (permalink, _) =>
      0 <= seed_number (parameters permalink) <= 2 ^ 31 /\
      seed_number (parameters permalink) = entropy mod (2 ^ 31 + 1)
  | Raise _ => True
  end.
Proof.
  unfold generate_new_layout.
  destruct (get_preset (preset w)) as [raw|e]; simpl; [|exact I].
  split; [apply randint_range; lia|].
  unfold randint. rewrite Z.sub_0_r. reflexivity.
Qed.

(** X9: the unlock signal of the background tasks overrides what
    [on_preset_changed] decided: with an unusable preset selected the
    generate buttons are disabled by the selection, enabled again by
    [enable_buttons_with_background_tasks(True)], and a click then raises
    the preset's [InvalidPreset]. *)
Theorem unlock_enables_unusable_preset
  (describe : Preset -> string) (str_uuid : N -> string) (entropy : Z)
  (w : GenerateGameWidget) (p : VersionedPreset) (e : InvalidPreset) :
  current_preset_data w = Some p ->
  get_preset p = Raise e ->
  let selected := _on_select_preset describe str_uuid w in
  let unlocked := enable_buttons_with_background_tasks true selected in
  create_generate_button selected = false /\
  create_generate_race_button selected = false /\
  create_generate_button unlocked = true /\
  create_generate_race_button unlocked = true /\
  create_preset_description unlocked = create_preset_description selected /\
  create_generate_button_clicked entropy unlocked = Raise e.
Proof.
  intros Hcur Hget selected unlocked. subst unlocked selected.
  unfold _on_select_preset, on_preset_changed. rewrite Hcur, Hget. simpl.
  repeat split.
  unfold create_generate_button_clicked, generate_new_layout, preset. simpl.
  rewrite Hcur, Hget. reflexivity.
Qed.

Lemma unlock_enables_unusable_preset_witness :
  create_generate_button_clicked 42
    (enable_buttons_with_background_tasks true
       (_on_select_preset Examples.describe Examples.str_uuid
          Scenarios.broken_selected))
  = Raise {| original_exception := "KeyError: 'elevators'" |}.
Proof.
  apply (unlock_enables_unusable_preset Examples.describe Examples.str_uuid
           42 Scenarios.broken_selected Examples.broken
           {| original_exception := "KeyError: 'elevators'" |}
           eq_refl eq_refl).
Defined.

(** X10: the first [on_options_changed] selects the preset the options name
    if the registry has it, and the default preset otherwise (no UUID
    stored, or a UUID the registry does not know); when the tree announces
    the change of selection, the UUID of the preset selected is stored in
    the options, and otherwise the stored UUID stays.  Every later call
    changes nothing, and the registry is never modified. *)
Theorem on_options_changed_once
  (describe : Preset -> string) (str_uuid : N -> string)
  (emits later_emits : bool) (options_selected later_selected : option N)
  (w : GenerateGameWidget) :
  let chosen :=
    match options_selected with
    | Some u => default (default_preset_for_game w) (preset_manager w !! u)
    | None => default_preset_for_game w
    end in
  let '(has_set, w1) :=
    on_options_changed describe str_uuid emits options_selected false w in
  has_set = true /\
  current_preset_data w1 = Some chosen /\
  preset_manager w1 = preset_manager w /\
  selected_preset_uuid w1
  = (if emits then Some (vp_uuid chosen) else selected_preset_uuid w) /\
  on_options_changed describe str_uuid later_emits later_selected has_set w1
  = (true, w1).
Proof.
  intros chosen. unfold on_options_changed, preset_for_uuid. simpl.
  set (found := match options_selected with
                | Some u => preset_manager w !! u
                | None => None
                end).
  assert (Hchosen : match found with
                    | Some p => p
                    | None => default_preset_for_game w
                    end = chosen).
  { subst found chosen. destruct options_selected as [u|]; [|reflexivity].
    destruct (preset_manager w !! u); reflexivity. }
  rewrite Hchosen. split; [reflexivity|].
  destruct emits; [|repeat split].
  unfold _on_select_preset, on_preset_changed. simpl.
  destruct (get_preset chosen); simpl; repeat split.
Qed.

(** X11: duplicating a usable selected preset whose fork gets a UUID the
    registry does not hold adds the fork and selects it; every preset that
    was in the registry, the original included, is still there. *)
Theorem duplicate_keeps_original
  (fork : Preset -> Preset) (w : GenerateGameWidget)
  (old_preset : VersionedPreset) (raw_preset : Preset) :
  current_preset_data w = Some old_preset ->
  get_preset old_preset = Ok raw_preset ->
  preset_manager w !! uuid (fork raw_preset) = None ->
  exists w',
    _on_duplicate_preset fork w = Ok w' /\
    preset_manager w' !! uuid (fork raw_preset)
    = Some (with_preset (fork raw_preset)) /\
    (forall u p, preset_manager w !! u = Some p ->
                 preset_manager w' !! u = Some p) /\
    size (preset_manager w') = S (size (preset_manager w)) /\
    current_preset_data w' = Some (with_preset (fork raw_preset)) /\
    selected_preset_uuid w' = Some (uuid (fork raw_preset)).
Proof.
  intros Hcur Hget Hfresh. unfold _on_duplicate_preset.
  rewrite Hcur, Hget. eexists. split; [reflexivity|].
  unfold _add_new_preset, add_new_preset. simpl.
  split; [apply lookup_insert_eq|]. split; [|split; [|auto]].
  - intros u p Hu. rewrite lookup_insert_ne; [exact Hu | congruence].
  - now apply map_size_insert_None.
Qed.

Lemma duplicate_keeps_original_witness :
  exists w',
    _on_duplicate_preset Scenarios.fork Scenarios.starter_selected = Ok w' /\
    preset_manager w' !! 107%N
    = Some (with_preset (Scenarios.fork Examples.starter)).
Proof.
  destruct (duplicate_keeps_original Scenarios.fork
              Scenarios.starter_selected (with_preset Examples.starter)
              Examples.starter eq_refl eq_refl eq_refl)
    as (w' & Hok & Hnew & _).
  exists w'. split; [exact Hok | exact Hnew].
Defined.

(** X12: a duplicate is made only of a usable selection: with nothing
    selected the slot raises [AttributeError], with an unusable preset its
    [InvalidPreset], and in both cases no widget state results. *)
Theorem duplicate_needs_usable_selection
  (fork : Preset -> Preset) (w : GenerateGameWidget) :
  match _on_duplicate_preset fork w with
  | Ok w' =>
      exists old_preset raw_preset,
        current_preset_data w = Some old_preset /\
        get_preset old_preset = Ok raw_preset /\
        w' = _add_new_preset (with_preset (fork raw_preset)) w
  | Raise AttributeError => current_preset_data w = None
  | Raise (InvalidPresetError e) =>
      exists old_preset,
        current_preset_data w = Some old_preset /\
        get_preset old_preset = Raise e
  end.
Proof.
  unfold _on_duplicate_preset.
  destruct (current_preset_data w) as [old|]; [|reflexivity].
  destruct (get_preset old) as [raw|e] eqn:Hget; eauto.
Qed.

(** X13: for the same draw, the generate, the no-retry and the race button
    build the same seed and the same presets, or all raise the same
    [InvalidPreset]; they differ in the spoiler flag (off for a race only)
    and the retries (0 for no-retry only). *)
Theorem generate_buttons_agree (entropy : Z) (w : GenerateGameWidget) :
  match create_generate_button_clicked entropy w,
        create_generate_no_retry_button_clicked entropy w,
        create_generate_race_button_clicked entropy w with
  | Ok (p1, r1), Ok (p2, r2), Ok (p3, r3) =>
      seed_number (parameters p1) = seed_number (parameters p2) /\
      seed_number (parameters p1) = seed_number (parameters p3) /\
      presets (parameters p1) = presets (parameters p2) /\
      presets (parameters p1) = presets (parameters p3) /\
      spoiler (parameters p1) = true /\
      spoiler (parameters p2) = true /\
      spoiler (parameters p3) = false /\
      r1 = None /\ r2 = Some 0 /\ r3 = None
  | Raise e1, Raise e2, Raise e3 => e1 = e2 /\ e1 = e3
  | _, _, _ => False
  end.
Proof.
  unfold create_generate_button_clicked,
    create_generate_no_retry_button_clicked,
    create_generate_race_button_clicked, generate_new_layout.
  destruct (get_preset (preset w)); simpl; auto 10.
Qed.

(** ** The background work, step by step *)

(** X14: when the generator returns a layout, [persist_layout] returns and
    the details window opens, [work] ends normally; the file system is the
    one [persist_layout] left; and the events are the generator's updates,
    the success update, and one [open_game_details], in this order. *)
Theorem work_success_persists_and_opens
  (save_to_file : list string -> LayoutDescription -> FileSystem ->
                  result FileSystem Exception)
  (generate_layout : GeneratorParameters -> option Z ->
                     list (string * Q) * result LayoutDescription Exception)
  (open_game_details_result : LayoutDescription -> result unit Exception)
  (permalink : Permalink) (retries : option Z) (now : datetime)
  (history_dir : list string) (fs : FileSystem)
  (updates : list (string * Q)) (layout : LayoutDescription)
  (fs' : FileSystem) :
  generate_layout (parameters permalink) retries = (updates, Ok layout) ->
  persist_layout save_to_file now history_dir layout fs = Ok fs' ->
  open_game_details_result layout = Ok tt ->
  work save_to_file generate_layout open_game_details_result permalink
    retries now history_dir {| file_system := fs; events := [] |}
  = ({| file_system := fs';
        events :=
          (map (fun u => progress_update (fst u) (snd u)) updates
             ++ [progress_update
                   ("Success! (Seed hash: " ++ shareable_hash layout
                      ++ ")")%string 1%Q;
                 open_game_details layout])%list |},
     Ok tt).
Proof.
  intros Hgen Hpersist Hopen.
  unfold work, try_except_GenerationFailure, bind, call_generate_layout,
    call_open_game_details, on_file_system, bind.
  rewrite Hgen. simpl. rewrite Hpersist. simpl. rewrite Hopen. simpl.
  now rewrite <- app_assoc.
Qed.

Lemma work_success_persists_and_opens_witness :
  snd (work Scenarios.write_file Examples.generate_ok Examples.open_ok
         Examples.permalink None Examples.now Examples.history_dir
         {| file_system := Examples.empty_fs; events := [] |})
  = Ok tt.
Proof.
  destruct (persist_layout Scenarios.write_file Examples.now
              Examples.history_dir Examples.layout Examples.empty_fs)
    as [fs'|e] eqn:Hpersist; [|vm_compute in Hpersist; discriminate].
  rewrite (work_success_persists_and_opens Scenarios.write_file
             Examples.generate_ok Examples.open_ok Examples.permalink None
             Examples.now Examples.history_dir Examples.empty_fs _ _ fs'
             eq_refl Hpersist eq_refl).
  reflexivity.
Defined.

(** X15: when the generator raises [GenerationFailure], [work] swallows the
    exception and ends normally; nothing is written and no window is
    opened; the failure handler is called once, before the update with
    -1. *)
Theorem work_failure_handled
  (save_to_file : list string -> LayoutDescription -> FileSystem ->
                  result FileSystem Exception)
  (generate_layout : GeneratorParameters -> option Z ->
                     list (string * Q) * result LayoutDescription Exception)
  (open_game_details_result : LayoutDescription -> result unit Exception)
  (permalink : Permalink) (retries : option Z) (now : datetime)
  (history_dir : list string) (fs : FileSystem)
  (updates : list (string * Q)) (message : string) :
  generate_layout (parameters permalink) retries
  = (updates, Raise (GenerationFailure message)) ->
  work save_to_file generate_layout open_game_details_result permalink
    retries now history_dir {| file_system := fs; events := [] |}
  = ({| file_system := fs;
        events :=
          (map (fun u => progress_update (fst u) (snd u)) updates
             ++ [handle_failure message;
                 progress_update ("Generation Failure: " ++ message)%string
                   (-1 # 1)%Q])%list |},
     Ok tt).
Proof.
  intros Hgen.
  unfold work, try_except_GenerationFailure, bind, call_generate_layout, bind.
  rewrite Hgen. simpl. unfold emit. simpl. now rewrite <- app_assoc.
Qed.

Lemma work_failure_handled_witness :
  file_system
    (fst (work Scenarios.write_file Examples.generate_fail Examples.open_ok
            Examples.permalink None Examples.now Examples.history_dir
            {| file_system := Examples.empty_fs; events := [] |}))
  = Examples.empty_fs.
Proof.
  rewrite (work_failure_handled Scenarios.write_file Examples.generate_fail
             Examples.open_ok Examples.permalink None Examples.now
             Examples.history_dir Examples.empty_fs _ _ eq_refl).
  reflexivity.
Defined.

(** X16: any other exception of the generator leaves [work] as it is: the
    failure handler is not called, no terminal update is sent, nothing is
    written. *)
Theorem work_other_exception_propagates
  (save_to_file : list string -> LayoutDescription -> FileSystem ->
                  result FileSystem Exception)
  (generate_layout : GeneratorParameters -> option Z ->
                     list (string * Q) * result LayoutDescription Exception)
  (open_game_details_result : LayoutDescription -> result unit Exception)
  (permalink : Permalink) (retries : option Z) (now : datetime)
  (history_dir : list string) (fs : FileSystem)
  (updates : list (string * Q)) (message : string) :
  generate_layout (parameters permalink) retries
  = (updates, Raise (OtherException message)) ->
  work save_to_file generate_layout open_game_details_result permalink
    retries now history_dir {| file_system := fs; events := [] |}
  = ({| file_system := fs;
        events := map (fun u => progress_update (fst u) (snd u)) updates |},
     Raise (OtherException message)).
Proof.
  intros Hgen.
  unfold work, try_except_GenerationFailure, bind, call_generate_layout, bind.
  rewrite Hgen. reflexivity.
Qed.

Lemma work_other_exception_propagates_witness :
  snd (work Scenarios.write_file Scenarios.generate_crash Examples.open_ok
         Examples.permalink None Examples.now Examples.history_dir
         {| file_system := Examples.empty_fs; events := [] |})
  = Raise (OtherException "KeyError: 'prime3'").
Proof.
  rewrite (work_other_exception_propagates Scenarios.write_file
             Scenarios.generate_crash Examples.open_ok Examples.permalink
             None Examples.now Examples.history_dir Examples.empty_fs _ _
             eq_refl).
  reflexivity.
Defined.

(** X17: the [try] block also covers the steps after the success update.
    When [persist_layout] has returned and opening the details window
    raises, the file system is the one [persist_layout] left and the update
    with 1 is already sent: a [GenerationFailure] raised there is handled
    like one of the generator, so the update with -1 follows the update
    with 1; any other exception leaves [work]. *)
Theorem work_open_game_details_raises
  (save_to_file : list string -> LayoutDescription -> FileSystem ->
                  result FileSystem Exception)
  (generate_layout : GeneratorParameters -> option Z ->
                     list (string * Q) * result LayoutDescription Exception)
  (open_game_details_result : LayoutDescription -> result unit Exception)
  (permalink : Permalink) (retries : option Z) (now : datetime)
  (history_dir : list string) (fs : FileSystem)
  (updates : list (string * Q)) (layout : LayoutDescription)
  (fs' : FileSystem) (e : Exception) :
  generate_layout (parameters permalink) retries = (updates, Ok layout) ->
  persist_layout save_to_file now history_dir layout fs = Ok fs' ->
  open_game_details_result layout = Raise e ->
  let '(world, outcome) :=
    work save_to_file generate_layout open_game_details_result permalink
    retries now history_dir {| file_system := fs; events := [] |} in
  file_system world = fs' /\
  match e with
  | GenerationFailure message =>
      outcome = Ok tt /\
      map snd (progress_updates (events world))
      = (map snd updates ++ [1%Q; (-1 # 1)%Q])%list
  | OtherException message =>
      outcome = Raise e /\
      map snd (progress_updates (events world))
      = (map snd updates ++ [1%Q])%list
  end.
Proof.
  intros Hgen Hpersist Hopen.
  unfold work, try_except_GenerationFailure, bind, call_generate_layout,
    call_open_game_details, on_file_system, bind.
  rewrite Hgen. simpl. rewrite Hpersist. simpl. rewrite Hopen. simpl.
  destruct e as [message|message]; simpl;
    (split; [reflexivity|]); (split; [reflexivity|]);
    rewrite !progress_updates_app, progress_updates_of_updates;
    cbn; rewrite ?app_nil_r, !map_app, <- ?app_assoc; reflexivity.
Qed.

Lemma work_open_game_details_raises_witness :
  snd (work Scenarios.write_file Examples.generate_ok Scenarios.open_fails
         Examples.permalink None Examples.now Examples.history_dir
         {| file_system := Examples.empty_fs; events := [] |})
  = Raise (OtherException "RuntimeError: no window").
Proof.
  destruct (persist_layout Scenarios.write_file Examples.now
              Examples.history_dir Examples.layout Examples.empty_fs)
    as [fs'|e] eqn:Hpersist; [|vm_compute in Hpersist; discriminate].
  pose proof (work_open_game_details_raises Scenarios.write_file
                Examples.generate_ok Scenarios.open_fails Examples.permalink
                None Examples.now Examples.history_dir Examples.empty_fs
                _ _ fs' _ eq_refl Hpersist eq_refl) as H.
  destruct (work Scenarios.write_file Examples.generate_ok
              Scenarios.open_fails Examples.permalink None Examples.now
              Examples.history_dir
              {| file_system := Examples.empty_fs; events := [] |})
    as [world outcome].
  destruct H as (_ & H & _). exact H.
Defined.



(** ** File names and the history directory *)

Lemma str_le_lt_or_eq (s1 s2 : string) :
  str_le s1 s2 <-> OrderedTypeEx.String_as_OT.lt s1 s2 \/ s1 = s2.
Proof.
  unfold str_le, String.leb.
  rewrite <- OrderedTypeEx.String_as_OT.cmp_lt,
    <- OrderedTypeEx.String_as_OT.cmp_eq.
  unfold OrderedTypeEx.String_as_OT.cmp.
  destruct (String.compare s1 s2); intuition discriminate.
Qed.

Lemma str_le_trans : Transitive str_le.
Proof.
  intros s1 s2 s3. rewrite !str_le_lt_or_eq.
  intros [H12| ->] [H23| ->]; auto.
  left. exact (OrderedTypeEx.String_as_OT.lt_trans _ _ _ H12 H23).
Qed.

Lemma str_le_antisym : AntiSymm (=) str_le.
Proof. intros s1 s2. apply String.leb_antisym. Qed.

(** [sorted] does not depend on the order of its input. *)
Lemma sorted_of_Permutation (l1 l2 : list string) :
  l1 ≡ₚ l2 -> sorted l1 = sorted l2.
Proof.
  intros Hperm. unfold sorted.
  apply (StronglySorted_unique str_le (AntiSymm0 := str_le_antisym)).
  - apply (StronglySorted_merge_sort str_le (Transitive0 := str_le_trans)).
  - apply (StronglySorted_merge_sort str_le (Transitive0 := str_le_trans)).
  - now rewrite !merge_sort_Permutation.
Qed.

(** X18: the file name does not depend on the order in which the layout
    lists its games: two descriptions that agree on word hash and extension
    and list the same games in any order get the same name. *)
Theorem layout_file_name_games_order
  (now : datetime) (d1 d2 : LayoutDescription) :
  all_games d1 ≡ₚ all_games d2 ->
  shareable_word_hash d1 = shareable_word_hash d2 ->
  file_extension d1 = file_extension d2 ->
  layout_file_name now d1 = layout_file_name now d2.
Proof.
  intros Hgames Hhash Hext. unfold layout_file_name.
  rewrite Hhash, Hext.
  rewrite (sorted_of_Permutation (map short_name (all_games d1))
             (map short_name (all_games d2))); [reflexivity|].
  now apply Permutation_map.
Qed.

Lemma layout_file_name_games_order_witness :
  layout_file_name Examples.now Examples.layout
  = layout_file_name Examples.now Scenarios.layout_reordered.
Proof.
  apply (layout_file_name_games_order Examples.now Examples.layout
           Scenarios.layout_reordered).
  - apply perm_swap.
  - reflexivity.
  - reflexivity.
Defined.

Lemma digit_inj (a b : N) :
  digit a = digit b -> (a mod 10 = b mod 10)%N.
Proof.
  unfold digit. intros H.
  apply (f_equal N_of_ascii) in H.
  pose proof (N.mod_upper_bound a 10 ltac:(discriminate)).
  pose proof (N.mod_upper_bound b 10 ltac:(discriminate)).
  rewrite !N_ascii_embedding in H by lia. lia.
Qed.

Lemma pad2_inj (n m : N) :
  (n < 100)%N -> (m < 100)%N -> pad2 n = pad2 m -> n = m.
Proof.
  intros Hn Hm H. unfold pad2 in H. injection H as H1 H0.
  apply digit_inj in H1, H0.
  zify. Z.to_euclidean_division_equations. lia.
Qed.

Lemma pad4_inj (n m : N) :
  (n < 10000)%N -> (m < 10000)%N -> pad4 n = pad4 m -> n = m.
Proof.
  intros Hn Hm H. unfold pad4, pad2 in H. injection H as H3 H2 H1 H0.
  apply digit_inj in H3, H2, H1, H0.
  replace (n / 1000)%N with (n / 10 / 10 / 10)%N in H3
    by (rewrite !N.Div0.div_div; reflexivity).
  replace (m / 1000)%N with (m / 10 / 10 / 10)%N in H3
    by (rewrite !N.Div0.div_div; reflexivity).
  replace (n / 100)%N with (n / 10 / 10)%N in H2
    by (rewrite !N.Div0.div_div; reflexivity).
  replace (m / 100)%N with (m / 10 / 10)%N in H2
    by (rewrite !N.Div0.div_div; reflexivity).
  pose proof (N.Div0.div_mod n 10) as En1.
  pose proof (N.Div0.div_mod (n / 10) 10) as En2.
  pose proof (N.Div0.div_mod (n / 10 / 10) 10) as En3.
  pose proof (N.Div0.div_mod m 10) as Em1.
  pose proof (N.Div0.div_mod (m / 10) 10) as Em2.
  pose proof (N.Div0.div_mod (m / 10 / 10) 10) as Em3.
  rewrite (N.mod_small (n / 10 / 10 / 10) 10) in H3.
  2:{ generalize dependent (n / 10 / 10 / 10)%N.
      generalize dependent (n / 10 / 10 mod 10)%N.
      generalize dependent (n / 10 / 10)%N.
      generalize dependent (n / 10 mod 10)%N.
      generalize dependent (n / 10)%N.
      generalize dependent (n mod 10)%N. intros. lia. }
  rewrite (N.mod_small (m / 10 / 10 / 10) 10) in H3.
  2:{ generalize dependent (m / 10 / 10 / 10)%N.
      generalize dependent (m / 10 / 10 mod 10)%N.
      generalize dependent (m / 10 / 10)%N.
      generalize dependent (m / 10 mod 10)%N.
      generalize dependent (m / 10)%N.
      generalize dependent (m mod 10)%N. intros. lia. }
  congruence.
Qed.

Lemma append_inj_same_length (s1 s2 r1 r2 : string) :
  String.length s1 = String.length s2 ->
  s1 ++ r1 = s2 ++ r2 -> s1 = s2 /\ r1 = r2.
Proof.
  revert s2. induction s1 as [|c s1 IH]; intros [|c' s2] Hlen H;
    try discriminate.
  - auto.
  - change (String c (s1 ++ r1) = String c' (s2 ++ r2)) in H.
    injection H as -> H. injection Hlen as Hlen.
    destruct (IH s2 Hlen H) as [-> ->]. auto.
Qed.

Lemma strftime_length (t : datetime) : String.length (strftime t) = 19%nat.
Proof. reflexivity. Qed.

(** Timestamps that differ are printed differently. *)
Lemma strftime_inj (t1 t2 : datetime) :
  valid_datetime t1 -> valid_datetime t2 ->
  strftime t1 = strftime t2 -> t1 = t2.
Proof.
  intros (Hy1 & Hm1 & Hd1 & Hh1 & Hi1 & Hs1) (Hy2 & Hm2 & Hd2 & Hh2 & Hi2 & Hs2)
    H.
  unfold strftime in H.
  apply append_inj_same_length in H as [Hy H]; [|reflexivity].
  apply append_inj_same_length in H as [_ H]; [|reflexivity].
  apply append_inj_same_length in H as [Hm H]; [|reflexivity].
  apply append_inj_same_length in H as [_ H]; [|reflexivity].
  apply append_inj_same_length in H as [Hd H]; [|reflexivity].
  apply append_inj_same_length in H as [_ H]; [|reflexivity].
  apply append_inj_same_length in H as [Hh H]; [|reflexivity].
  apply append_inj_same_length in H as [_ H]; [|reflexivity].
  apply append_inj_same_length in H as [Hi H]; [|reflexivity].
  apply append_inj_same_length in H as [_ Hs]; [|reflexivity].
  apply pad4_inj in Hy; [|assumption..].
  apply pad2_inj in Hm, Hd, Hh, Hi, Hs; try assumption.
  destruct t1, t2; simpl in *; congruence.
Qed.

Lemma layout_file_name_time (t1 t2 : datetime) (d1 d2 : LayoutDescription) :
  valid_datetime t1 -> valid_datetime t2 ->
  layout_file_name t1 d1 = layout_file_name t2 d2 -> t1 = t2.
Proof.
  intros Hv1 Hv2 H. unfold layout_file_name in H.
  apply append_inj_same_length in H as [H _];
    [|now rewrite !strftime_length].
  now apply strftime_inj.
Qed.

(** X19: layouts persisted at different seconds never get the same path:
    for two timestamps that differ, the paths [persist_layout] computes in
    the history directory differ, whatever games and hashes the layouts
    have. *)
Theorem layout_file_name_distinct_times
  (t1 t2 : datetime) (history_dir : list string)
  (d1 d2 : LayoutDescription) :
  valid_datetime t1 -> valid_datetime t2 -> t1 <> t2 ->
  joinpath history_dir (layout_file_name t1 d1)
  <> joinpath history_dir (layout_file_name t2 d2).
Proof.
  intros Hv1 Hv2 Hne. unfold joinpath. intros Heq.
  apply app_inv_head in Heq.
  assert (Hname : layout_file_name t1 d1 = layout_file_name t2 d2)
    by congruence.
  exact (Hne (layout_file_name_time _ _ _ _ Hv1 Hv2 Hname)).
Qed.

Lemma layout_file_name_distinct_times_witness :
  joinpath Examples.history_dir
    (layout_file_name Examples.now Examples.layout)
  <> joinpath Examples.history_dir
       (layout_file_name Scenarios.later Examples.layout).
Proof.
  apply (layout_file_name_distinct_times Examples.now Scenarios.later
           Examples.history_dir Examples.layout Examples.layout).
  - repeat split.
  - repeat split.
  - discriminate.
Defined.

Lemma elem_of_proper_ancestors (q dir : list string) :
  q ∈ proper_ancestors dir <-> q `prefix_of` dir /\ q <> dir.
Proof.
  destruct dir as [|x l _] using rev_ind.
  - simpl. split; [intros H; inversion H|].
    intros [Hq Hne]. apply prefix_nil_inv in Hq. contradiction.
  - assert (Hp : proper_ancestors (l ++ [x]) = ancestors l).
    { unfold proper_ancestors. destruct (l ++ [x])%list eqn:Hl.
      - now apply app_nil in Hl as [_ [=]].
      - rewrite <- Hl. now rewrite removelast_last. }
    rewrite Hp, elem_of_ancestors. split.
    + intros Hq. split; [now apply prefix_app_r|].
      intros ->. apply prefix_length in Hq.
      rewrite length_app in Hq. simpl in Hq. lia.
    + intros [[k Hk] Hne]. destruct k as [|y k _] using rev_ind.
      * rewrite app_nil_r in Hk. congruence.
      * rewrite app_assoc in Hk. apply app_inj_tail in Hk as [-> _].
        now apply prefix_app_r.
Qed.

(** X20: when the history directory or an ancestor of it is a regular file,
    [persist_layout] raises before [save_to_file] is reached:
    [NotADirectoryError] when an ancestor is the file, [FileExistsError]
    when only the directory's own path is. *)
Theorem persist_layout_blocked
  (save_to_file : list string -> LayoutDescription -> FileSystem ->
                  result FileSystem Exception)
  (now : datetime) (history_dir : list string) (d : LayoutDescription)
  (fs : FileSystem) (p : list string) :
  p `prefix_of` history_dir -> is_Some (files fs !! p) ->
  (persist_layout save_to_file now history_dir d fs
   = Raise NotADirectoryError /\
   exists q, q `prefix_of` history_dir /\ q <> history_dir /\
             is_Some (files fs !! q))
  \/
  (persist_layout save_to_file now history_dir d fs = Raise FileExistsError /\
   is_Some (files fs !! history_dir) /\
   forall q, q `prefix_of` history_dir -> q <> history_dir ->
             files fs !! q = None).
Proof.
  intros Hp Hfile. unfold persist_layout, mkdir_parents.
  destruct (existsb (is_file fs) (proper_ancestors history_dir)) eqn:Hanc.
  - left. split; [reflexivity|].
    apply existsb_exists in Hanc as (q & Hq & Hqfile).
    apply list_elem_of_In, elem_of_proper_ancestors in Hq as [Hq Hne].
    exists q. split; [exact Hq|]. split; [exact Hne|].
    now apply is_file_true.
  - assert (Hfree : forall q, q `prefix_of` history_dir ->
                              q <> history_dir -> files fs !! q = None).
    { intros q Hq Hne. apply is_file_false.
      destruct (is_file fs q) eqn:Hqfile; [|reflexivity].
      assert (existsb (is_file fs) (proper_ancestors history_dir) = true);
        [|congruence].
      apply existsb_exists. exists q. split; [|exact Hqfile].
      apply list_elem_of_In, elem_of_proper_ancestors. auto. }
    assert (Hdir : is_Some (files fs !! history_dir)).
    { destruct (decide (p = history_dir)) as [->|Hne]; [exact Hfile|].
      rewrite (Hfree p Hp Hne) in Hfile. now destruct Hfile. }
    right. rewrite (proj2 (is_file_true fs history_dir) Hdir).
    split; [reflexivity|]. split; [exact Hdir | exact Hfree].
Qed.

Lemma persist_layout_blocked_witness :
  persist_layout Scenarios.write_file Examples.now Examples.history_dir
    Examples.layout Scenarios.blocked_fs
  = Raise FileExistsError.
Proof.
  destruct (persist_layout_blocked Scenarios.write_file Examples.now
              Examples.history_dir Examples.layout Scenarios.blocked_fs
              Examples.history_dir)
    as [[H _]|[H _]].
  - reflexivity.
  - vm_compute. eexists. reflexivity.
  - vm_compute in H. discriminate H.
  - exact H.
Defined.

(** ** What a change of preset leaves alone *)

(** X22: [on_preset_changed] writes the description and the two generate
    buttons and nothing else: registry, stored selection, tree selection,
    player count, menu and message boxes are as before.  For a usable
    preset the description starts with the name in bold, followed by the
    preset's own description and the text of the describer. *)
Theorem on_preset_changed_frame
  (describe : Preset -> string) (str_uuid : N -> string)
  (preset : option VersionedPreset) (w : GenerateGameWidget) :
  let w' := on_preset_changed describe str_uuid preset w in
  preset_manager w' = preset_manager w /\
  selected_preset_uuid w' = selected_preset_uuid w /\
  current_preset_data w' = current_preset_data w /\
  num_players_spin_box w' = num_players_spin_box w /\
  preset_menu w' = preset_menu w /\
  message_boxes w' = message_boxes w /\
  match preset with
  | Some vp =>
      match get_preset vp with
      | Ok raw_preset =>
          create_preset_description w'
          = "<p style='font-weight:600;'>" ++ name raw_preset ++ "</p><p>"
              ++ description raw_preset ++ "</p>" ++ describe raw_preset
      | Raise _ => True
      end
  | None => True
  end.
Proof.
  intros w'. subst w'. unfold on_preset_changed.
  destruct preset as [vp|]; [destruct (get_preset vp)|]; simpl; auto 10.
Qed.
